(** * Endpoint-access and add-on reconcilers of eksctl

    A shallow embedding of

    - [pkg/ctl/utils/update_cluster_endpoint_access.go]
      ([accessFlagsSet], [doUpdateClusterEndpoints]) and
    - the [defaultaddons] package's [UpdateAWSNode],

    together with the properties their specification states about them.

    Go code that talks to collaborators (the loader, the cloud control plane,
    the Kubernetes client, the logger) is embedded in a small state monad
    with early return and panic.  Every collaborator call and every log line
    is recorded in a trace, so that "the mutating API is never called" is a
    statement about the trace of a run. *)

From Stdlib Require Import Ascii.
From stdpp Require Import base option list strings gmap.

Local Open Scope string_scope.

(** ** Go strings

    Go strings are byte sequences; [string] (a list of 8-bit [ascii]) has the
    same shape.  [+:+] is concatenation. *)

(** [strings.Split(s, sep)] for a separator of one byte (the only use in the
    sources is [strings.Split( *image, ":")]): the pieces of [s] between the
    occurrences of [sep]; a string without [sep] gives the one-element slice
    holding [s] itself. *)
Fixpoint Split (s : string) (sep : ascii) : list string :=
  match s with
  | EmptyString => [EmptyString]
  | String c rest =>
      if Ascii.eqb c sep then EmptyString :: Split rest sep
      else match Split rest sep with
           | piece :: pieces => String c piece :: pieces
           | [] => [String c EmptyString]
           end
  end.

(** Number of occurrences of the byte [sep] in [s] ([strings.Count]). *)
Fixpoint Count (s : string) (sep : ascii) : nat :=
  match s with
  | EmptyString => 0
  | String c rest => (if Ascii.eqb c sep then 1 else 0) + Count rest sep
  end.

(** The slice expression [s[n:]] for [n <= len(s)]. *)
Fixpoint slice_from (n : nat) (s : string) : string :=
  match n, s with
  | O, _ => s
  | S n', String _ rest => slice_from n' rest
  | S _, EmptyString => EmptyString
  end.

(** [strings.HasSuffix(s, suffix)]:
    [len(s) >= len(suffix) && s[len(s)-len(suffix):] == suffix]. *)
Definition HasSuffix (s suffix : string) : bool :=
  (String.length suffix <=? String.length s)%nat &&
  String.eqb (slice_from (String.length s - String.length suffix) s) suffix.

(** [%v] of a [bool]. *)
Definition fmt_bool (b : bool) : string := if b then "true" else "false".

(** ** Go errors

    An [error] value is [nil] ([None]) or one of the values below; the two
    sentinels of package [api] are compared by identity in the source. *)
Inductive error : Type :=
| ErrClusterEndpointNoAccess
| ErrClusterEndpointPrivateOnly
| StatusNotFound (what : string)            (* a k8s status error, reason NotFound *)
| Errorf (format : string) (args : list string)        (* fmt.Errorf *)
| Wrapf (cause : error) (format : string) (args : list string) (* errors.Wrapf *)
| ErrOther (msg : string).

Global Instance error_eq_dec : EqDecision error.
Proof.
  intros x.
  induction x as [| |s|f a|c IHc f a|m];
    intros [| |s'|f' a'|c' f' a'|m'];
    try (right; discriminate); try (left; reflexivity).
  - destruct (decide (s = s')) as [->|]; [left | right]; congruence.
  - destruct (decide (f = f')) as [->|]; [|right; congruence].
    destruct (decide (a = a')) as [->|]; [left | right]; congruence.
  - destruct (IHc c') as [->|]; [|right; congruence].
    destruct (decide (f = f')) as [->|]; [|right; congruence].
    destruct (decide (a = a')) as [->|]; [left | right]; congruence.
  - destruct (decide (m = m')) as [->|]; [left | right]; congruence.
Defined.

(** [apierrs.IsNotFound]. *)
Definition IsNotFound (err : error) : bool :=
  match err with StatusNotFound _ => true | _ => false end.

(** ** The monad of a Go function body

    A statement either falls through to the next one, leaves the function
    with [return r], or panics.  The state [S] is threaded through. *)
Inductive flow (R A : Type) : Type :=
| Next (a : A)
| Return (r : R)
| Panic (msg : string).
Arguments Next {R A} a.
Arguments Return {R A} r.
Arguments Panic {R A} msg.

Definition M (S R A : Type) : Type := S -> flow R A * S.

Definition ret {S R A} (a : A) : M S R A := fun s => (Next a, s).

Definition bind {S R A B} (m : M S R A) (k : A -> M S R B) : M S R B :=
  fun s =>
    match m s with
    | (Next a, s') => k a s'
    | (Return r, s') => (Return r, s')
    | (Panic msg, s') => (Panic msg, s')
    end.

Definition return_ {S R A} (r : R) : M S R A := fun s => (Return r, s).
Definition panic {S R A} (msg : string) : M S R A := fun s => (Panic msg, s).
Definition gets {S R A} (f : S -> A) : M S R A := fun s => (Next (f s), s).
Definition modify {S R} (f : S -> S) : M S R unit := fun s => (Next tt, f s).

(** stdpp's monad notations: [x ← m; k], ['(x, y) ← m; k] and [m;; k]. *)
Global Instance M_ret {S R} : MRet (M S R) := fun A => @ret S R A.
Global Instance M_bind {S R} : MBind (M S R) := fun A B k m => @bind S R A B m k.

(** [if err != nil { return err }]. *)
Definition check {S} (err : option error) : M S (option error) unit :=
  match err with
  | Some e => return_ (Some e)
  | None => ret tt
  end.

(** What a call of a Go function gives its caller. *)
Inductive result (R : Type) : Type :=
| Returned (r : R)
| Panicked (msg : string).
Arguments Returned {R} r.
Arguments Panicked {R} msg.

(** Running a function body: every path of a Go function ends in [return]
    (or a panic), so the body never falls through. *)
Definition call {S R} (body : M S R Empty_set) (s : S) : result R * S :=
  match body s with
  | (Next e, _) => match e with end
  | (Return r, s') => (Returned r, s')
  | (Panic msg, s') => (Panicked msg, s')
  end.

(** ** The logger and the trace of a run *)

Inductive level : Type := Info | Success | Warning | Critical.

(** A trace entry: a line handed to the logger (the format string and its
    arguments as the source passes them, [%v] of a [bool] already rendered),
    or a call [c] of a collaborator. *)
Inductive event (C : Type) : Type :=
| Log (lvl : level) (format : string) (args : list string)
| LogError (lvl : level) (err : error)     (* logger.<lvl>(err.Error()) *)
| Call (c : C).
Arguments Log {C} lvl format args.
Arguments LogError {C} lvl err.
Arguments Call {C} c.

(** ** Package [api]: the cluster configuration *)
Module api.

Record ClusterMeta : Type := { Name : string; Region : string }.

(** [PrivateAccess] and [PublicAccess] are [*bool] in the source. *)
Record ClusterEndpoints : Type :=
  { PrivateAccess : option bool; PublicAccess : option bool }.

(** [cfg.VPC.ClusterEndpoints] is [Endpoints (VPC cfg)]. *)
Record ClusterVPC : Type := { Endpoints : ClusterEndpoints }.

Record ClusterConfig : Type := { Metadata : ClusterMeta; VPC : ClusterVPC }.

(** Modelled from the spec: [ValidateClusterEndpointConfig] is declared in
    package [api], which is not among the sources.  Section 4.1 gives its
    contract: [NoAccessError] when both accesses are false, the
    private-only warning (the sentinel [ErrClusterEndpointPrivateOnly] the
    caller compares against) when private is true and public is false, and
    no error otherwise.  The reconciler calls it only after it has stored
    both pointers; a configuration with an unset pointer is outside the
    contract and is given no error here. *)
Definition ValidateClusterEndpointConfig (c : ClusterConfig) : option error :=
  match PrivateAccess (Endpoints (VPC c)), PublicAccess (Endpoints (VPC c)) with
  | Some false, Some false => Some ErrClusterEndpointNoAccess
  | Some true, Some false => Some ErrClusterEndpointPrivateOnly
  | _, _ => None
  end.

End api.

(** ** Package [utils]: [update-cluster-endpoints] *)
Module utils.

(** [pflag.Flag]: only [Changed] is read. *)
Record Flag : Type := { Changed : bool }.

(** [cmdutils.Cmd]: the plan flag, the cluster configuration and the named
    flag sets; a flag set maps a flag's name to the flag. *)
Record Cmd : Type :=
  { Plan : bool;
    ClusterConfig : api.ClusterConfig;
    FlagSetGroup : gmap string (gmap string Flag) }.

(** The endpoint access of the live cluster, as the control plane holds it. *)
Record EndpointAccessState : Type :=
  { privateAccess : bool; publicAccess : bool }.

(** Collaborator calls of [doUpdateClusterEndpoints]. *)
Inductive call_ : Type :=
| Load_
| NewCtl_
| CheckAuth_
| CanUpdate_
| GetCurrentClusterConfigForEndpoints_
| ValidateClusterEndpointConfig_ (eps : api.ClusterEndpoints)
| UpdateClusterConfigForEndpoints_ (eps : api.ClusterEndpoints)
| LogIntendedAction_ (plan : bool) (format : string) (args : list string)
| LogCompletedAction_ (plan : bool) (format : string) (args : list string)
| LogPlanModeWarning_ (plan : bool).

(** What the collaborators answer.  The loader fills in the cluster
    configuration; the other calls read it. *)
Record World : Type :=
  { Load : api.ClusterConfig → error + api.ClusterConfig;
    NewCtl : option error;
    CheckAuth : option error;
    CanUpdate : api.ClusterConfig → bool * option error;
    GetCurrentErr : option error;
    UpdateErr : api.ClusterEndpoints → option error }.

(** The state a run works on: the configuration behind [cmd.ClusterConfig],
    the live cluster and the trace. *)
Record State : Type :=
  { cfg : api.ClusterConfig;
    remote : EndpointAccessState;
    trace : list (event call_) }.

Definition set_cfg (c : api.ClusterConfig) (s : State) : State :=
  {| cfg := c; remote := remote s; trace := trace s |}.
Definition set_remote (r : EndpointAccessState) (s : State) : State :=
  {| cfg := cfg s; remote := r; trace := trace s |}.
Definition record (e : event call_) (s : State) : State :=
  {| cfg := cfg s; remote := remote s; trace := trace s ++ [e] |}.

(** [cfg.VPC.ClusterEndpoints.PrivateAccess = &p] and
    [cfg.VPC.ClusterEndpoints.PublicAccess = &q]. *)
Definition set_PrivateAccess (p : bool) (c : api.ClusterConfig) : api.ClusterConfig :=
  {| api.Metadata := api.Metadata c;
     api.VPC := {| api.Endpoints :=
       {| api.PrivateAccess := Some p;
          api.PublicAccess := api.PublicAccess (api.Endpoints (api.VPC c)) |} |} |}.
Definition set_PublicAccess (q : bool) (c : api.ClusterConfig) : api.ClusterConfig :=
  {| api.Metadata := api.Metadata c;
     api.VPC := {| api.Endpoints :=
       {| api.PrivateAccess := api.PrivateAccess (api.Endpoints (api.VPC c));
          api.PublicAccess := Some q |} |} |}.

Definition flagGroup : string :=
  "Update private/public Kubernetes API endpoint access configuration".

(** [FlagSetGroup.InFlagSet(name, f)] runs [f] on the flag set of that
    name, a fresh empty one when there is none. *)
Definition InFlagSet (g : gmap string (gmap string Flag)) (name : string)
  : gmap string Flag :=
  default ∅ (g !! name).

(** [accessFlagsSet]: whether [--private-access] and [--public-access] were
    given on the command line.  Both results start as [false] and are
    assigned only when [Lookup] finds the flag. *)
Definition accessFlagsSet (cmd : Cmd) : bool * bool :=
  let fs := InFlagSet (FlagSetGroup cmd) flagGroup in
  let privateSet :=
    match fs !! "private-access" with
    | Some priv => Changed priv
    | None => false
    end in
  let publicSet :=
    match fs !! "public-access" with
    | Some pub => Changed pub
    | None => false
    end in
  (privateSet, publicSet).

(** Modelled from the spec: the control-plane update
    ([updateEndpointAccess], section 6) is all-or-nothing (section 3): on
    success the live cluster takes the values the configuration carries (an
    unset pointer leaves that access as it is), on failure nothing
    changes. *)
Definition apply_endpoints (eps : api.ClusterEndpoints) (r : EndpointAccessState)
  : EndpointAccessState :=
  {| privateAccess := default (privateAccess r) (api.PrivateAccess eps);
     publicAccess := default (publicAccess r) (api.PublicAccess eps) |}.

Section Reconcile.

(** [cfg.ValidateClusterEndpointConfig], and the collaborators. *)
Context (validate : api.ClusterConfig → option error) (w : World).

Local Abbreviation Body := (M State (option error)).

Definition emit (e : event call_) : Body unit := modify (record e).
Definition logger (lvl : level) (format : string) (args : list string) : Body unit :=
  emit (Log lvl format args).

Definition doLoad : Body (option error) :=
  emit (Call Load_);;
  c ← gets cfg;
  match Load w c with
  | inl err => mret (Some err)
  | inr c' => modify (set_cfg c');; mret None
  end.

Definition doNewCtl : Body (option error) :=
  emit (Call NewCtl_);; mret (NewCtl w).

Definition doCheckAuth : Body (option error) :=
  emit (Call CheckAuth_);; mret (CheckAuth w).

Definition doCanUpdate (c : api.ClusterConfig) : Body (bool * option error) :=
  emit (Call CanUpdate_);; mret (CanUpdate w c).

Definition GetCurrentClusterConfigForEndpoints : Body (bool * bool * option error) :=
  emit (Call GetCurrentClusterConfigForEndpoints_);;
  match GetCurrentErr w with
  | Some err => mret (false, false, Some err)
  | None =>
      r ← gets remote;
      mret (privateAccess r, publicAccess r, None)
  end.

Definition doValidate : Body (option error) :=
  c ← gets cfg;
  emit (Call (ValidateClusterEndpointConfig_ (api.Endpoints (api.VPC c))));;
  mret (validate c).

Definition UpdateClusterConfigForEndpoints : Body (option error) :=
  c ← gets cfg;
  let eps := api.Endpoints (api.VPC c) in
  emit (Call (UpdateClusterConfigForEndpoints_ eps));;
  match UpdateErr w eps with
  | Some err => mret (Some err)
  | None =>
      r ← gets remote;
      modify (set_remote (apply_endpoints eps r));;
      mret None
  end.

(** [doUpdateClusterEndpoints(cmd, newPrivate, newPublic)]. *)
Definition doUpdateClusterEndpoints (cmd : Cmd) (newPrivate newPublic : bool)
  : Body Empty_set :=
  err ← doLoad;
  check err;;
  c ← gets cfg;
  let meta := api.Metadata c in
  err ← doNewCtl;
  check err;;
  logger Info "using region %s" [api.Region meta];;
  err ← doCheckAuth;
  check err;;
  '(ok, err) ← doCanUpdate c;
  (if negb ok then return_ err else mret tt);;
  '(curPrivate, curPublic, err) ← GetCurrentClusterConfigForEndpoints;
  check err;;
  logger Info
    "current Kubernetes API endpoint access: privateAccess=%v, publicAccess=%v"
    [fmt_bool curPrivate; fmt_bool curPublic];;
  let '(privateSet, publicSet) := accessFlagsSet cmd in
  let newPrivate := if negb privateSet then curPrivate else newPrivate in
  let newPublic := if negb publicSet then curPublic else newPublic in
  (* Nothing changed? *)
  if Bool.eqb newPrivate curPrivate && Bool.eqb newPublic curPublic then
    logger Success
      "Kubernetes API endpoint access for cluster %q in %q is already up to date"
      [api.Name meta; api.Region meta];;
    return_ None
  else
    modify (λ s, set_cfg (set_PrivateAccess newPrivate (cfg s)) s);;
    modify (λ s, set_cfg (set_PublicAccess newPublic (cfg s)) s);;
    let describeAccessToUpdate :=
      "privateAccess=" +:+ fmt_bool newPrivate +:+
      ", publicAccess=" +:+ fmt_bool newPublic in
    emit (Call (LogIntendedAction_ (Plan cmd)
      "update Kubernetes API endpoint access for cluster %q in %q to: %s"
      [api.Name meta; api.Region meta; describeAccessToUpdate]));;
    err ← doValidate;
    match err with
    | Some e =>
        (* Error for everything except private-only (which leaves the
           cluster accessible) *)
        if decide (e ≠ ErrClusterEndpointPrivateOnly) then return_ (Some e)
        else emit (LogError Warning e)
    | None => mret tt
    end;;
    (if negb (Plan cmd) then
       err ← UpdateClusterConfigForEndpoints;
       check err;;
       emit (Call (LogCompletedAction_ false
         ("the Kubernetes API endpoint access for cluster %q in %q has been updated to: " +:+
          "privateAccess=%v, publicAccess=%v")
         [api.Name meta; api.Region meta; fmt_bool newPrivate; fmt_bool newPublic]))
     else mret tt);;
    emit (Call (LogPlanModeWarning_ (Plan cmd)));;
    return_ None.

End Reconcile.

(** *** Vocabulary of the specification *)

(** A flag was explicitly supplied: it is registered in the access flag
    set and marked [Changed]. *)
Definition supplied (cmd : Cmd) (name : string) : bool :=
  match InFlagSet (FlagSetGroup cmd) flagGroup !! name with
  | Some f => Changed f
  | None => false
  end.

(** The resolved desired state in the words of the specification (4.2,
    step 1): for each access, the override when it was explicitly supplied,
    else the current value. *)
Definition resolved (cmd : Cmd) (newPrivate newPublic : bool)
    (current : EndpointAccessState) : EndpointAccessState :=
  {| privateAccess :=
       if supplied cmd "private-access" then newPrivate else privateAccess current;
     publicAccess :=
       if supplied cmd "public-access" then newPublic else publicAccess current |}.

(** The configuration document carrying a desired state: both pointers set. *)
Definition endpointsOf (d : EndpointAccessState) : api.ClusterEndpoints :=
  {| api.PrivateAccess := Some (privateAccess d);
     api.PublicAccess := Some (publicAccess d) |}.

Definition withEndpoints (d : EndpointAccessState) (c : api.ClusterConfig)
  : api.ClusterConfig :=
  set_PublicAccess (publicAccess d) (set_PrivateAccess (privateAccess d) c).

(** The collaborators let the run reach the comparison of desired and
    current state: the loader yields the configuration [c], the session is
    set up and authorised, the cluster can be updated and its current
    endpoint access can be read. *)
Definition ready (w : World) (cmd : Cmd) (c : api.ClusterConfig) : Prop :=
  Load w (ClusterConfig cmd) = inr c ∧
  NewCtl w = None ∧
  CheckAuth w = None ∧
  (CanUpdate w c).1 = true ∧
  GetCurrentErr w = None.

(** The trace of a run up to that comparison. *)
Definition preamble (c : api.ClusterConfig) (current : EndpointAccessState)
  : list (event call_) :=
  [ Call Load_; Call NewCtl_;
    Log Info "using region %s" [api.Region (api.Metadata c)];
    Call CheckAuth_; Call CanUpdate_;
    Call GetCurrentClusterConfigForEndpoints_;
    Log Info
      "current Kubernetes API endpoint access: privateAccess=%v, publicAccess=%v"
      [fmt_bool (privateAccess current); fmt_bool (publicAccess current)] ].

(** The arguments of the calls of the mutating update API, in order. *)
Fixpoint update_calls (tr : list (event call_)) : list api.ClusterEndpoints :=
  match tr with
  | Call (UpdateClusterConfigForEndpoints_ eps) :: tr' => eps :: update_calls tr'
  | _ :: tr' => update_calls tr'
  | [] => []
  end.

(** The arguments of the calls of the validator, in order. *)
Fixpoint validate_calls (tr : list (event call_)) : list api.ClusterEndpoints :=
  match tr with
  | Call (ValidateClusterEndpointConfig_ eps) :: tr' => eps :: validate_calls tr'
  | _ :: tr' => validate_calls tr'
  | [] => []
  end.

(** The changes a run announced ([LogIntendedAction]): the arguments of
    each announcement, whatever the plan flag. *)
Fixpoint announced (tr : list (event call_)) : list (list string) :=
  match tr with
  | Call (LogIntendedAction_ _ _ args) :: tr' => args :: announced tr'
  | _ :: tr' => announced tr'
  | [] => []
  end.

(** The [changed] verdict of a run, which the command reports through the
    logger: it announced a change and returned no error. *)
Definition changed (out : result (option error) * State) : bool :=
  match out.1 with
  | Returned None => negb (bool_decide (announced (trace out.2) = []))
  | _ => false
  end.

(** The two states the validator singles out. *)
Definition noAccess : EndpointAccessState :=
  {| privateAccess := false; publicAccess := false |}.
Definition privateOnly : EndpointAccessState :=
  {| privateAccess := true; publicAccess := false |}.

(** [describeAccessToUpdate] for a desired state. *)
Definition describe (d : EndpointAccessState) : string :=
  "privateAccess=" +:+ fmt_bool (privateAccess d) +:+
  ", publicAccess=" +:+ fmt_bool (publicAccess d).

(** The announcement of the change to [d] and the validation that follows. *)
Definition intent (plan : bool) (c : api.ClusterConfig) (d : EndpointAccessState)
  : list (event call_) :=
  [ Call (LogIntendedAction_ plan
      "update Kubernetes API endpoint access for cluster %q in %q to: %s"
      [api.Name (api.Metadata c); api.Region (api.Metadata c); describe d]);
    Call (ValidateClusterEndpointConfig_ (endpointsOf d)) ].

(** Validation passes, with or without the private-only warning. *)
Definition accepted (v : option error) : bool :=
  match v with
  | None => true
  | Some e => bool_decide (e = ErrClusterEndpointPrivateOnly)
  end.

(** The warning a passing validation leaves in the trace. *)
Definition warnings (v : option error) : list (event call_) :=
  match v with
  | None => []
  | Some e => [LogError Warning e]
  end.

(** The same command with the plan flag set to [b]. *)
Definition withPlan (b : bool) (cmd : Cmd) : Cmd :=
  {| Plan := b; ClusterConfig := ClusterConfig cmd; FlagSetGroup := FlagSetGroup cmd |}.

(** The state a command starts in, for a live cluster in state [live]. *)
Definition start (cmd : Cmd) (live : EndpointAccessState) : State :=
  {| cfg := ClusterConfig cmd; remote := live; trace := [] |}.

(** [Reconcile]: one run of the command against the live cluster. *)
Definition run (validate : api.ClusterConfig → option error) (w : World)
    (cmd : Cmd) (newPrivate newPublic : bool) (live : EndpointAccessState)
  : result (option error) * State :=
  call (doUpdateClusterEndpoints validate w cmd newPrivate newPublic) (start cmd live).

(** *** A concrete cluster, for examples

    All collaborators succeed; [flagsGiven p q] is the flag set after a
    command line that gave [--private-access] iff [p] and
    [--public-access] iff [q]. *)
Definition quietWorld : World :=
  {| Load := inr; NewCtl := None; CheckAuth := None;
     CanUpdate := λ _, (true, None);
     GetCurrentErr := None; UpdateErr := λ _, None |}.

Definition flagsGiven (p q : bool) : gmap string (gmap string Flag) :=
  {[ flagGroup :=
       {[ "private-access" := {| Changed := p |};
          "public-access" := {| Changed := q |} ]} ]}.

Definition cluster3 : api.ClusterConfig :=
  {| api.Metadata := {| api.Name := "cluster3"; api.Region := "us-west-2" |};
     api.VPC := {| api.Endpoints :=
       {| api.PrivateAccess := None; api.PublicAccess := None |} |} |}.

Definition live_public : EndpointAccessState :=
  {| privateAccess := false; publicAccess := true |}.
Definition live_both : EndpointAccessState :=
  {| privateAccess := true; publicAccess := true |}.

Definition command (plan p q : bool) : Cmd :=
  {| Plan := plan; ClusterConfig := cluster3; FlagSetGroup := flagsGiven p q |}.

End utils.

(** ** Package [defaultaddons]: the [aws-node] add-on *)
Module defaultaddons.

(** AWSNode is the name of the aws-node addon *)
Definition AWSNode : string := "aws-node".
Definition awsNodeImagePrefixPTN : string := "%s.dkr.ecr.".
Definition awsNodeImageSuffix : string := ".amazonaws.com/amazon-k8s-cni".

(** [metav1.NamespaceSystem]. *)
Definition NamespaceSystem : string := "kube-system".

(** [fmt.Sprintf(format, arg)] for a format with the verb [%s] and one
    string operand: the first [%s] is replaced by the operand. *)
Fixpoint Sprintf_s (format arg : string) : string :=
  match format with
  | String "%" (String "s" rest) => arg +:+ rest
  | String c rest => String c (Sprintf_s rest arg)
  | EmptyString => EmptyString
  end.

(** [corev1.Container] and the part of [appsv1.DaemonSet] that is read:
    [Spec.Template.Spec.Containers]. *)
Record Container : Type := { ContainerName : string; Image : string }.
Record DaemonSet : Type := { Containers : list Container }.

(** [runtime.Object]: the dynamic type is an [*appsv1.DaemonSet] or
    something else. *)
Inductive Object : Type :=
| DaemonSetV1 (ds : DaemonSet)
| OtherObject (doc : string).

(** [kubernetes.RawResource]: [GVK.Kind] and [Info.Object]. *)
Record RawResource : Type := { Kind : string; InfoObject : Object }.

(** Collaborator calls of [UpdateAWSNode]; a manifest item
    ([runtime.RawExtension]) is its raw bytes. *)
Inductive call_ : Type :=
| GetDaemonSet_ (namespace name : string)
| LoadAsset_ (name ext : string)
| NewRawResource_ (rawObj : string)
| CreateOrReplace_ (resource : RawResource) (plan : bool).

Abbreviation Trace := (list (event call_)).

(** What the collaborators answer; an answer may depend on everything that
    happened before the call.  [LogAction] only formats a line. *)
Record World : Type :=
  { GetDaemonSet : Trace → string → string → option error;
    LoadAsset : Trace → string → string → error + list string;
    NewRawResource : Trace → string → error + RawResource;
    CreateOrReplace : Trace → RawResource → bool → string * option error;
    LogAction : RawResource → bool → string → string }.

Section Update.

(** [api.EKSResourceAccountID], and the collaborators. *)
Context (EKSResourceAccountID : string → string) (w : World).

Local Abbreviation Body := (M Trace (bool * option error)).

Definition emit (e : event call_) : Body unit := modify (λ t : Trace, app t [e]).
Definition logger (lvl : level) (format : string) (args : list string) : Body unit :=
  emit (Log lvl format args).

(** [xs[i]]: panics when [i] is out of range. *)
Definition index {A} (xs : list A) (i : nat) : Body A :=
  match xs !! i with
  | Some x => mret x
  | None => panic "index out of range"
  end.

(** The type assertion [obj.( *appsv1.DaemonSet)]. *)
Definition assertDaemonSet (obj : Object) : Body DaemonSet :=
  match obj with
  | DaemonSetV1 ds => mret ds
  | OtherObject _ => panic "interface conversion"
  end.

(** [*image = v] for [image] pointing at the first container's image. *)
Definition set_image (v : string) (resource : RawResource) : RawResource :=
  match InfoObject resource with
  | DaemonSetV1 ds =>
      match Containers ds with
      | c :: cs =>
          {| Kind := Kind resource;
             InfoObject := DaemonSetV1
               {| Containers :=
                    {| ContainerName := ContainerName c; Image := v |} :: cs |} |}
      | [] => resource
      end
  | OtherObject _ => resource
  end.

(** The registry rewrite of one image reference (lines 49 to 57): the
    error of a malformed reference, or the image to store. *)
Definition rewriteImage (region image : string) : Body string :=
  let imageParts := Split image ":" in
  if negb (Nat.eqb (length imageParts) 2) then
    return_ (false, Some (Errorf "unexpected image format %q for %q" [image; AWSNode]))
  else
    let awsNodeImagePrefix :=
      Sprintf_s awsNodeImagePrefixPTN (EKSResourceAccountID region) in
    host ← index imageParts 0;
    if HasSuffix host awsNodeImageSuffix then
      tag ← index imageParts 1;
      mret (awsNodeImagePrefix +:+ region +:+ awsNodeImageSuffix +:+ ":" +:+ tag)
    else mret image.

(** One iteration of the loop over [list.Items]. *)
Definition iteration (region : string) (plan : bool) (rawObj : string) : Body unit :=
  t ← gets id;
  emit (Call (NewRawResource_ rawObj));;
  match NewRawResource w t rawObj with
  | inl err => return_ (false, Some err)
  | inr resource =>
      resource ←
        (if String.eqb (Kind resource) "DaemonSet" then
           ds ← assertDaemonSet (InfoObject resource);
           c ← index (Containers ds) 0;
           image ← rewriteImage region (Image c);
           mret (set_image image resource)
         else mret resource);
      if String.eqb (Kind resource) "CustomResourceDefinition" && plan then
        (* eniconfigs.crd.k8s.amazonaws.com CRD is only partially defined
           in the manifest, and causes a range of issue in plan mode, we
           can skip it *)
        logger Info (LogAction w resource plan "replaced") []
      else
        t ← gets id;
        emit (Call (CreateOrReplace_ resource plan));;
        let '(status, err) := CreateOrReplace w t resource plan in
        match err with
        | Some e => return_ (false, Some e)
        | None => logger Info status []
        end
  end.

Fixpoint loop (region : string) (plan : bool) (items : list string) : Body unit :=
  match items with
  | [] => mret tt
  | rawObj :: rest => iteration region plan rawObj;; loop region plan rest
  end.

(** UpdateAWSNode will update the `aws-node` add-on *)
Definition UpdateAWSNode (region : string) (plan : bool) : Body Empty_set :=
  t ← gets id;
  emit (Call (GetDaemonSet_ NamespaceSystem AWSNode));;
  match GetDaemonSet w t NamespaceSystem AWSNode with
  | Some err =>
      if IsNotFound err then
        logger Warning "%q was not found" [AWSNode];;
        return_ (false, None)
      else return_ (false, Some (Wrapf err "getting %q" [AWSNode]))
  | None =>
      (* if DaemonSets is present, go through our list of assets *)
      t ← gets id;
      emit (Call (LoadAsset_ AWSNode "yaml"));;
      match LoadAsset w t AWSNode "yaml" with
      | inl err => return_ (false, Some err)
      | inr list =>
          loop region plan list;;
          if plan then
            logger Critical "(plan) %q is not up-to-date" [AWSNode];;
            return_ (true, None)
          else
            logger Info "%q is now up-to-date" [AWSNode];;
            return_ (false, None)
      end
  end.

End Update.

(** *** Vocabulary of the specification *)

(** What [resource.CreateOrReplace(plan)] and the lines after it do from
    the trace [t]: the call is recorded; an error leaves the function with
    [false, err], a status is logged and the loop goes on. *)
Definition applied (w : World) (plan : bool) (resource : RawResource) (t : Trace)
  : flow (bool * option error) unit * Trace :=
  let t1 := app t [Call (CreateOrReplace_ resource plan)] in
  match CreateOrReplace w t resource plan with
  | (_, Some e) => (Return (false, Some e), t1)
  | (status, None) => (Next tt, app t1 [Log Info status []])
  end.

(** The create-or-replace calls of a trace and the manifests it loaded. *)
Fixpoint apply_calls (tr : Trace) : list (RawResource * bool) :=
  match tr with
  | Call (CreateOrReplace_ r plan) :: tr' => (r, plan) :: apply_calls tr'
  | _ :: tr' => apply_calls tr'
  | [] => []
  end.

Fixpoint load_calls (tr : Trace) : list string :=
  match tr with
  | Call (LoadAsset_ name _) :: tr' => name :: load_calls tr'
  | _ :: tr' => load_calls tr'
  | [] => []
  end.

(** A [DaemonSet] resource whose first container runs [image]. *)
Definition daemonSet (c : Container) (cs : list Container) (image : string)
  : RawResource :=
  {| Kind := "DaemonSet";
     InfoObject := DaemonSetV1
       {| Containers := {| ContainerName := ContainerName c; Image := image |} :: cs |} |}.

(** The image the rewrite produces for a tag. *)
Definition regionalImage (EKSResourceAccountID : string → string)
    (region tag : string) : string :=
  EKSResourceAccountID region +:+ ".dkr.ecr." +:+ region +:+
  awsNodeImageSuffix +:+ ":" +:+ tag.

(** A statement that leaves the function does so with [false] and an
    error; a statement that does not panic. *)
Definition failing {A} (f : flow (bool * option error) A) : Prop :=
  match f with
  | Return (changed, err) => changed = false ∧ is_Some err
  | _ => True
  end.

Definition panics {R A} (f : flow R A) : bool :=
  match f with Panic _ => true | _ => false end.

(** Every [DaemonSet]-kind resource the client builds is an
    [*appsv1.DaemonSet] with at least one container. *)
Definition daemonSetsHaveContainer (w : World) : Prop :=
  ∀ t rawObj r,
    NewRawResource w t rawObj = inr r → Kind r = "DaemonSet" →
    ∃ c cs, InfoObject r = DaemonSetV1 {| Containers := c :: cs |}.

(** One call of [UpdateAWSNode] from an empty trace. *)
Definition run (EKSResourceAccountID : string → string) (w : World)
    (region : string) (plan : bool) : result (bool * option error) * Trace :=
  call (UpdateAWSNode EKSResourceAccountID w region plan) [].

(** *** A concrete cluster, for examples

    The add-on is installed and its manifest holds a [DaemonSet] running
    [image], followed by a custom resource definition; every call
    succeeds. *)
Definition accountID (region : string) : string := "602401143452".

Definition nodeDaemonSet (containers : list Container) : RawResource :=
  {| Kind := "DaemonSet"; InfoObject := DaemonSetV1 {| Containers := containers |} |}.

Definition eniConfigCRD : RawResource :=
  {| Kind := "CustomResourceDefinition"; InfoObject := OtherObject "eniconfigs" |}.

Definition installed (containers : list Container) : World :=
  {| GetDaemonSet := λ _ _ _, None;
     LoadAsset := λ _ _ _, inr ["daemonset"; "crd"];
     NewRawResource := λ _ raw,
       if String.eqb raw "daemonset" then inr (nodeDaemonSet containers)
       else inr eniConfigCRD;
     CreateOrReplace := λ _ _ plan,
       (if plan then "would replace" else "replaced", None);
     LogAction := λ _ plan verb,
       if plan then "(plan) would have " +:+ verb else verb |}.

Definition upstreamImage : string :=
  "123456789012.dkr.ecr.us-west-2.amazonaws.com/amazon-k8s-cni:v1.7.0".

Definition node (image : string) : list Container :=
  [ {| ContainerName := "aws-node"; Image := image |} ].

(** The add-on is not installed. *)
Definition notInstalled : World :=
  {| GetDaemonSet := λ _ _ name, Some (StatusNotFound name);
     LoadAsset := λ _ _ _, inr [];
     NewRawResource := λ _ _, inl (ErrOther "unused");
     CreateOrReplace := λ _ _ _, ("", None);
     LogAction := λ _ _ _, "" |}.

End defaultaddons.

Global Instance EndpointAccessState_eq_dec : EqDecision utils.EndpointAccessState.
Proof. solve_decision. Defined.

(** ** Collaborators that fail, for examples *)
Module failures.

(** The collaborators of the endpoint command with the given answers: the
    loader keeps the configuration when it succeeds. *)
Definition world (load newCtl checkAuth : option error)
    (canUpdate : bool * option error) (getCurrent update : option error)
  : utils.World :=
  {| utils.Load := λ c, match load with Some e => inl e | None => inr c end;
     utils.NewCtl := newCtl;
     utils.CheckAuth := checkAuth;
     utils.CanUpdate := λ _, canUpdate;
     utils.GetCurrentErr := getCurrent;
     utils.UpdateErr := λ _, update |}.

Definition denied : error := ErrOther "AccessDenied".

End failures.

(** ** Further vocabulary for the add-on reconciler *)
Module addon_traces.

(** The manifest items handed to [NewRawResource], in order. *)
Fixpoint built (tr : defaultaddons.Trace) : list string :=
  match tr with
  | Call (defaultaddons.NewRawResource_ rawObj) :: tr' => rawObj :: built tr'
  | _ :: tr' => built tr'
  | [] => []
  end.

(** What one iteration adds to the trace after its [NewRawResource] call,
    with the way it ends: nothing, when the iteration stops before
    [CreateOrReplace]; the line of the skip, in plan mode; the failed
    [CreateOrReplace] call; the call and its status line. *)
Inductive added (plan : bool)
  : flow (bool * option error) unit → defaultaddons.Trace → Prop :=
| added_stop f : f ≠ Next tt → added plan f []
| added_skip line : plan = true → added plan (Next tt) [Log Info line []]
| added_fail r e :
    added plan (Return (false, Some e)) [Call (defaultaddons.CreateOrReplace_ r plan)]
| added_done r status :
    added plan (Next tt)
      [Call (defaultaddons.CreateOrReplace_ r plan); Log Info status []].

End addon_traces.

(** ** Add-on collaborators that fail, for examples *)
Module addon_failures.
Import defaultaddons.

(** The probe fails with an error that is not "not found". *)
Definition probeDenied : World :=
  {| GetDaemonSet := λ _ _ _, Some failures.denied;
     LoadAsset := λ _ _ _, inr [];
     NewRawResource := λ _ _, inl (ErrOther "unused");
     CreateOrReplace := λ _ _ _, ("", None);
     LogAction := λ _ _ _, "" |}.

(** The manifest cannot be loaded. *)
Definition noAsset : World :=
  {| GetDaemonSet := λ _ _ _, None;
     LoadAsset := λ _ _ _, inl (ErrOther "asset not found");
     NewRawResource := λ _ _, inl (ErrOther "unused");
     CreateOrReplace := λ _ _ _, ("", None);
     LogAction := λ _ _ _, "" |}.

Definition serviceAccount : RawResource :=
  {| Kind := "ServiceAccount"; InfoObject := OtherObject "aws-node" |}.

(** A manifest of a service account, an item that cannot be decoded and a
    custom resource definition; [CreateOrReplace] fails iff [broken]. *)
Definition threeItems (broken : bool) : World :=
  {| GetDaemonSet := λ _ _ _, None;
     LoadAsset := λ _ _ _, inr ["sa"; "garbage"; "crd"];
     NewRawResource := λ _ raw,
       if String.eqb raw "sa" then inr serviceAccount
       else if String.eqb raw "crd" then inr eniConfigCRD
       else inl (ErrOther "cannot decode");
     CreateOrReplace := λ _ _ _,
       if broken then ("", Some failures.denied) else ("replaced", None);
     LogAction := λ _ _ _, "" |}.

(** A manifest whose [DaemonSet] item decodes to an object of another API
    group. *)
Definition legacyDaemonSet : World :=
  {| GetDaemonSet := λ _ _ _, None;
     LoadAsset := λ _ _ _, inr ["daemonset"];
     NewRawResource := λ _ _,
       inr {| Kind := "DaemonSet"; InfoObject := OtherObject "extensions/v1beta1" |};
     CreateOrReplace := λ _ _ _, ("replaced", None);
     LogAction := λ _ _ _, "" |}.

(** The stock manifest with an applier that is denied. *)
Definition deniedApplier : World :=
  {| GetDaemonSet := λ _ _ _, None;
     LoadAsset := λ _ _ _, inr ["daemonset"; "crd"];
     NewRawResource := λ _ raw,
       if String.eqb raw "daemonset" then inr (nodeDaemonSet (node upstreamImage))
       else inr eniConfigCRD;
     CreateOrReplace := λ _ _ _, ("", Some failures.denied);
     LogAction := λ _ _ _, "" |}.

End addon_failures.

(** ** The integration test of the endpoint command *)
Module integration_test.

Definition createCluster : string := "Create".
Definition updateCluster : string := "Update".
Definition deleteCluster : string := "Delete".

(** The package-level [clusterName], with the number of names drawn from
    [cmdutils.ClusterName] so far. *)
Record Suite : Type := { clusterName : string; namesDrawn : nat }.

(** [generateName]; [ClusterName n] is what the [n]-th call of
    [cmdutils.ClusterName("", "")] returns. *)
Definition generateName (ClusterName : nat → string) (prefix : string) (s : Suite)
  : string * Suite :=
  let s' :=
    if String.eqb (clusterName s) ""
    then {| clusterName := ClusterName (namesDrawn s);
            namesDrawn := S (namesDrawn s) |}
    else s in
  (prefix +:+ "-" +:+ clusterName s', s').

(** [endpointAccessCase]; the test reads of [Error] only whether it is nil. *)
Record endpointAccessCase : Type :=
  { Name : string; Private : bool; Public : bool; Type_ : string;
    Error : option error }.

(** The entries of the table whose [Type] is [updateCluster], in order. *)
Definition updateEntries : list endpointAccessCase :=
  [ {| Name := "cluster1"; Private := true; Public := false;
       Type_ := updateCluster; Error := None |};
    {| Name := "cluster3"; Private := true; Public := false;
       Type_ := updateCluster; Error := None |};
    {| Name := "cluster3"; Private := false; Public := false;
       Type_ := updateCluster;
       Error := Some (ErrOther
         "Unable to make requested changes.  Either public access or private access must be enabled") |};
    {| Name := "cluster3"; Private := false; Public := true;
       Type_ := updateCluster; Error := None |} ].

(** The command an update entry runs: [update-cluster-endpoints] with both
    access flags given and [--approve]. *)
Definition updateCommand (cfg : api.ClusterConfig) : utils.Cmd :=
  {| utils.Plan := false;
     utils.ClusterConfig := cfg;
     utils.FlagSetGroup := utils.flagsGiven true true |}.

(** What the test reads back with [get cluster] after a successful update. *)
Definition requested (e : endpointAccessCase) : utils.EndpointAccessState :=
  {| utils.privateAccess := Private e; utils.publicAccess := Public e |}.

End integration_test.

(** * Properties of the endpoint-access reconciler *)
Section EndpointReconcile.
Import utils.

(** The collaborators, and the validator [cfg.ValidateClusterEndpointConfig]
    as a parameter: what does not depend on its verdicts is proved for any
    validator. *)
Context (validate : api.ClusterConfig → option error) (w : World).

Lemma accessFlagsSet_supplied cmd :
  accessFlagsSet cmd = (supplied cmd "private-access", supplied cmd "public-access").
Proof. reflexivity. Qed.

Ltac unfold_go :=
  unfold run, call, doUpdateClusterEndpoints, doLoad, doNewCtl, doCheckAuth,
    doCanUpdate, GetCurrentClusterConfigForEndpoints, doValidate,
    UpdateClusterConfigForEndpoints, logger, emit, check;
  unfold mbind, M_bind, mret, M_ret, bind, modify, gets, ret, return_;
  cbn -[accessFlagsSet].

(** Runs the preamble of [doUpdateClusterEndpoints] under [ready]. *)
Ltac preamble_go H :=
  let HL := fresh "HL" in let HN := fresh "HN" in let HA := fresh "HA" in
  let HC := fresh "HC" in let HG := fresh "HG" in
  destruct H as (HL & HN & HA & HC & HG);
  unfold_go; rewrite HL; cbn -[accessFlagsSet]; rewrite HN; cbn -[accessFlagsSet];
  rewrite HA; cbn -[accessFlagsSet];
  match type of HC with
  | (CanUpdate _ ?c).1 = true =>
      let ok := fresh "ok" in let e := fresh "e" in
      destruct (CanUpdate w c) as [ok e]; cbn in HC; subst ok
  end; cbn -[accessFlagsSet];
  rewrite HG; cbn -[accessFlagsSet];
  rewrite accessFlagsSet_supplied; cbn -[supplied].

(** Case analysis on the flags and on the comparison with the current
    state. *)
Ltac flags_go cmd :=
  destruct (supplied cmd "private-access"), (supplied cmd "public-access");
  cbn in *;
  repeat match goal with
    | |- context [Bool.eqb ?a ?b] => destruct (Bool.eqb_spec a b); cbn
    end;
  try congruence.

Lemma run_same cmd np nq live c :
  ready w cmd c →
  resolved cmd np nq live = live →
  run validate w cmd np nq live =
    (Returned None,
     {| cfg := c; remote := live;
        trace := preamble c live ++
          [Log Success
             "Kubernetes API endpoint access for cluster %q in %q is already up to date"
             [api.Name (api.Metadata c); api.Region (api.Metadata c)]] |}).
Proof.
  intros Hready Hres. preamble_go Hready.
  unfold resolved in Hres. destruct live as [lp lq]; cbn in *.
  injection Hres as Hp Hq.
  flags_go cmd; reflexivity.
Qed.

Lemma run_rejected cmd np nq live c d e :
  ready w cmd c →
  resolved cmd np nq live = d → d ≠ live →
  validate (withEndpoints d c) = Some e → e ≠ ErrClusterEndpointPrivateOnly →
  run validate w cmd np nq live =
    (Returned (Some e),
     {| cfg := withEndpoints d c; remote := live;
        trace := preamble c live ++ intent (Plan cmd) c d |}).
Proof.
  intros Hready Hres Hne Hv He. preamble_go Hready.
  subst d. unfold resolved, withEndpoints, describe, intent in *.
  destruct live as [lp lq]; cbn in *.
  flags_go cmd;
    (rewrite Hv; destruct (decide (e ≠ ErrClusterEndpointPrivateOnly));
     [reflexivity | contradiction]).
Qed.

Lemma run_plan cmd np nq live c d :
  ready w cmd c →
  resolved cmd np nq live = d → d ≠ live →
  accepted (validate (withEndpoints d c)) = true →
  Plan cmd = true →
  run validate w cmd np nq live =
    (Returned None,
     {| cfg := withEndpoints d c; remote := live;
        trace := preamble c live ++ intent true c d ++
                 warnings (validate (withEndpoints d c)) ++
                 [Call (LogPlanModeWarning_ true)] |}).
Proof.
  intros Hready Hres Hne Hv Hplan. preamble_go Hready.
  subst d. unfold resolved, withEndpoints, describe, intent, accepted, warnings in *.
  rewrite Hplan. destruct live as [lp lq]; cbn in *.
  flags_go cmd;
    (match goal with
     | |- context [validate ?x] => destruct (validate x) as [e'|]; cbn
     end; try reflexivity;
     apply bool_decide_eq_true in Hv; subst e';
     destruct (decide (ErrClusterEndpointPrivateOnly ≠ ErrClusterEndpointPrivateOnly));
     [contradiction | reflexivity]).
Qed.

Lemma run_apply cmd np nq live c d :
  ready w cmd c →
  resolved cmd np nq live = d → d ≠ live →
  accepted (validate (withEndpoints d c)) = true →
  Plan cmd = false →
  run validate w cmd np nq live =
    let before :=
      (preamble c live ++ intent false c d ++
       warnings (validate (withEndpoints d c)) ++
       [Call (UpdateClusterConfigForEndpoints_ (endpointsOf d))])%list in
    match UpdateErr w (endpointsOf d) with
    | Some err =>
        (Returned (Some err),
         {| cfg := withEndpoints d c; remote := live; trace := before |})
    | None =>
        (Returned None,
         {| cfg := withEndpoints d c; remote := d;
            trace := before ++
              [Call (LogCompletedAction_ false
                 "the Kubernetes API endpoint access for cluster %q in %q has been updated to: privateAccess=%v, publicAccess=%v"
                 [api.Name (api.Metadata c); api.Region (api.Metadata c);
                  fmt_bool (privateAccess d); fmt_bool (publicAccess d)]);
               Call (LogPlanModeWarning_ false)] |})
    end.
Proof.
  intros Hready Hres Hne Hv Hplan. preamble_go Hready.
  subst d.
  unfold resolved, withEndpoints, describe, intent, accepted, warnings,
    endpointsOf, apply_endpoints in *.
  rewrite Hplan. destruct live as [lp lq]; cbn in *.
  flags_go cmd;
    (match goal with
     | |- context [validate ?x] => destruct (validate x) as [e'|]; cbn
     end;
     try (apply bool_decide_eq_true in Hv; subst e';
          destruct (decide (ErrClusterEndpointPrivateOnly ≠ ErrClusterEndpointPrivateOnly));
          [contradiction | cbn]);
     match goal with
     | |- context [UpdateErr w ?x] => destruct (UpdateErr w x); reflexivity
     end).
Qed.

(** C3.  Whatever the current state and the plan flag, when the resolved
    desired state equals the current state the run returns success,
    reports "already up to date" and no change, calls neither the
    validator nor the mutating update API, and leaves the cluster as it
    is. *)
Theorem C3_up_to_date cmd np nq live c :
  ready w cmd c →
  resolved cmd np nq live = live →
  let out := run validate w cmd np nq live in
  out.1 = Returned None ∧
  changed out = false ∧
  last (trace out.2) =
    Some (Log Success
      "Kubernetes API endpoint access for cluster %q in %q is already up to date"
      [api.Name (api.Metadata c); api.Region (api.Metadata c)]) ∧
  validate_calls (trace out.2) = [] ∧
  update_calls (trace out.2) = [] ∧
  remote out.2 = live.
Proof.
  intros Hready Hres out. subst out.
  rewrite (run_same _ _ _ _ _ Hready Hres). unfold changed; cbn.
  repeat split.
Qed.

(** C4.  When the resolved desired state differs from the current state and
    passes validation, a run in plan mode announces the intended change,
    returns success reporting a change, and calls the mutating update API
    zero times; the cluster stays as it is. *)
Theorem C4_plan_no_mutation cmd np nq live c d :
  ready w cmd c →
  resolved cmd np nq live = d → d ≠ live →
  accepted (validate (withEndpoints d c)) = true →
  Plan cmd = true →
  let out := run validate w cmd np nq live in
  out.1 = Returned None ∧
  changed out = true ∧
  announced (trace out.2) =
    [[api.Name (api.Metadata c); api.Region (api.Metadata c); describe d]] ∧
  last (trace out.2) = Some (Call (LogPlanModeWarning_ true)) ∧
  update_calls (trace out.2) = [] ∧
  remote out.2 = live.
Proof.
  intros Hready Hres Hne Hv Hplan out. subst out.
  rewrite (run_plan _ _ _ _ _ _ Hready Hres Hne Hv Hplan). unfold changed; cbn.
  destruct (validate (withEndpoints d c)); cbn; repeat split.
Qed.

(** C5.  Each access is resolved on its own: the desired value is the
    caller's override when that flag was explicitly supplied (also when it
    was supplied as false) and the current live value when it was not.  The
    run acts on exactly that state: when it equals the current state the
    configuration is left as loaded and no change is reported; otherwise it
    is what the run stores in the configuration, announces, validates and,
    in apply mode after a passing validation, sends to the update API. *)
Theorem C5_resolution cmd np nq live c :
  ready w cmd c →
  let d := resolved cmd np nq live in
  let out := run validate w cmd np nq live in
  (privateAccess d =
     if supplied cmd "private-access" then np else privateAccess live) ∧
  (publicAccess d =
     if supplied cmd "public-access" then nq else publicAccess live) ∧
  (d = live → cfg out.2 = c ∧ changed out = false) ∧
  (d ≠ live →
     cfg out.2 = withEndpoints d c ∧
     validate_calls (trace out.2) = [endpointsOf d] ∧
     announced (trace out.2) =
       [[api.Name (api.Metadata c); api.Region (api.Metadata c); describe d]] ∧
     (Plan cmd = false → accepted (validate (withEndpoints d c)) = true →
      update_calls (trace out.2) = [endpointsOf d])).
Proof.
  intros Hready d out. split; [reflexivity|]. split; [reflexivity|].
  subst out d. remember (resolved cmd np nq live) as d eqn:Hres.
  symmetry in Hres. split.
  - intros Hd. subst d. rewrite (run_same _ _ _ _ _ Hready Hd).
    unfold changed; cbn. auto.
  - intros Hd.
    destruct (accepted (validate (withEndpoints d c))) eqn:Hacc.
    + destruct (Plan cmd) eqn:Hplan.
      * rewrite (run_plan _ _ _ _ _ _ Hready Hres Hd Hacc Hplan).
        destruct (validate (withEndpoints d c)); cbn; repeat split;
          intros; discriminate.
      * rewrite (run_apply _ _ _ _ _ _ Hready Hres Hd Hacc Hplan).
        destruct (validate (withEndpoints d c)), (UpdateErr w (endpointsOf d));
          cbn; repeat split; reflexivity.
    + unfold accepted in Hacc.
      destruct (validate (withEndpoints d c)) as [e|] eqn:Hv; [|discriminate].
      apply bool_decide_eq_false in Hacc.
      rewrite (run_rejected _ _ _ _ _ _ _ Hready Hres Hd Hv Hacc); cbn.
      repeat split. intros _ ?; discriminate.
Qed.

End EndpointReconcile.

(** ** With the validator of package [api] *)
Section EndpointValidation.
Import utils.
Context (w : World).

Lemma validate_withEndpoints d c :
  api.ValidateClusterEndpointConfig (withEndpoints d c) =
    match privateAccess d, publicAccess d with
    | false, false => Some ErrClusterEndpointNoAccess
    | true, false => Some ErrClusterEndpointPrivateOnly
    | _, _ => None
    end.
Proof. destruct d as [[] []]; reflexivity. Qed.

(** C1.  Whatever the current state and the plan flag, when the resolved
    desired state differs from the current state and has both accesses
    false, the run returns the no-access validation error and never calls
    the mutating update API: the cluster stays as it is. *)
Theorem C1_no_access_rejected cmd np nq live c :
  ready w cmd c →
  resolved cmd np nq live = noAccess → noAccess ≠ live →
  let out := run api.ValidateClusterEndpointConfig w cmd np nq live in
  out.1 = Returned (Some ErrClusterEndpointNoAccess) ∧
  validate_calls (trace out.2) = [endpointsOf noAccess] ∧
  update_calls (trace out.2) = [] ∧
  remote out.2 = live.
Proof.
  intros Hready Hres Hne out. subst out.
  rewrite (run_rejected api.ValidateClusterEndpointConfig w cmd np nq live c noAccess ErrClusterEndpointNoAccess
             Hready Hres Hne);
    [cbn; repeat split | reflexivity | discriminate].
Qed.

(** C6.  When the resolved desired state is private-only and differs from
    the current state, validation yields the private-only warning, which
    is logged as a warning and does not abort the run: in plan mode the run
    returns success, and in apply mode the mutating update API is called
    with the private-only state, whose outcome the run returns. *)
Theorem C6_private_only_warns cmd np nq live c :
  ready w cmd c →
  resolved cmd np nq live = privateOnly → privateOnly ≠ live →
  let out := run api.ValidateClusterEndpointConfig w cmd np nq live in
  LogError Warning ErrClusterEndpointPrivateOnly ∈ trace out.2 ∧
  (Plan cmd = true → out.1 = Returned None ∧ changed out = true) ∧
  (Plan cmd = false →
     update_calls (trace out.2) = [endpointsOf privateOnly] ∧
     out.1 = Returned (UpdateErr w (endpointsOf privateOnly)) ∧
     (UpdateErr w (endpointsOf privateOnly) = None →
      remote out.2 = privateOnly ∧ changed out = true)).
Proof.
  intros Hready Hres Hne out. subst out.
  destruct (Plan cmd) eqn:Hplan.
  - rewrite (run_plan api.ValidateClusterEndpointConfig w cmd np nq live c privateOnly Hready Hres Hne eq_refl Hplan).
    unfold changed; cbn. split; [|split; [auto | discriminate]].
    rewrite !elem_of_cons; auto 12.
  - rewrite (run_apply api.ValidateClusterEndpointConfig w cmd np nq live c privateOnly Hready Hres Hne eq_refl Hplan).
    cbn. destruct (UpdateErr w (endpointsOf privateOnly)) eqn:Hu; unfold changed; cbn;
      (split; [rewrite !elem_of_cons; auto 12 | split; [discriminate|]]);
      intros _; repeat split; try discriminate; auto.
Qed.

End EndpointValidation.

(** ** Plan mode against apply mode *)
Section PlanApply.
Import utils.
Context (validate : api.ClusterConfig → option error) (w : World).

Ltac unfold_go :=
  unfold run, call, doUpdateClusterEndpoints, doLoad, doNewCtl, doCheckAuth,
    doCanUpdate, GetCurrentClusterConfigForEndpoints, doValidate,
    UpdateClusterConfigForEndpoints, logger, emit, check;
  unfold mbind, M_bind, mret, M_ret, bind, modify, gets, ret, return_;
  cbn -[accessFlagsSet].

(** The two runs agree up to the comparison with the current state; after
    it they differ in the update call alone. *)
Lemma plan_apply_agree cmd np nq live :
  let p := run validate w (withPlan true cmd) np nq live in
  let a := run validate w (withPlan false cmd) np nq live in
  update_calls (trace p.2) = [] ∧
  remote p.2 = live ∧
  (UpdateErr w (endpointsOf (resolved cmd np nq live)) = None →
   p.1 = a.1 ∧ changed p = changed a ∧
   announced (trace p.2) = announced (trace a.2) ∧
   cfg p.2 = cfg a.2).
Proof.
  intros p a. subst p a. unfold changed. unfold_go.
  destruct (Load w (ClusterConfig cmd)) as [e0|c]; cbn -[accessFlagsSet];
    [repeat split|].
  destruct (NewCtl w); cbn -[accessFlagsSet]; [repeat split|].
  destruct (CheckAuth w); cbn -[accessFlagsSet]; [repeat split|].
  destruct (CanUpdate w c) as [[] e1]; cbn -[accessFlagsSet]; [|repeat split].
  destruct (GetCurrentErr w); cbn -[accessFlagsSet]; [repeat split|].
  change (accessFlagsSet (withPlan true cmd)) with
    (supplied cmd "private-access", supplied cmd "public-access").
  change (accessFlagsSet (withPlan false cmd)) with
    (supplied cmd "private-access", supplied cmd "public-access").
  unfold resolved, endpointsOf. destruct live as [lp lq]. cbn -[supplied].
  destruct (supplied cmd "private-access"), (supplied cmd "public-access");
    cbn;
    repeat match goal with
      | |- context [Bool.eqb ?x ?y] => destruct (Bool.eqb_spec x y); cbn
      end;
    try (repeat split; fail);
    match goal with
    | |- context [validate ?x] => destruct (validate x) as [e'|]; cbn
    end;
    try match goal with
      | |- context [decide (?x ≠ ?y)] => destruct (decide (x ≠ y)); cbn
      end;
    try (repeat split; fail);
    (split; [reflexivity|]; split; [reflexivity|];
     intros Hu; rewrite Hu; cbn; repeat split).
Qed.
End PlanApply.

(** * Properties of Go's string functions *)
Section Strings.
Context (sep : ascii).

Lemma append_nil s : "" +:+ s = s.
Proof. reflexivity. Qed.

Lemma append_cons c s1 s2 : String c s1 +:+ s2 = String c (s1 +:+ s2).
Proof. reflexivity. Qed.

Lemma append_assoc s1 s2 s3 : (s1 +:+ s2) +:+ s3 = s1 +:+ s2 +:+ s3.
Proof.
  induction s1 as [|c s1 IH]; rewrite ?append_nil, ?append_cons;
    [reflexivity|].
  now rewrite IH.
Qed.

Lemma Split_length s : length (Split s sep) = S (Count s sep).
Proof.
  induction s as [|c s IH]; cbn; [reflexivity|].
  destruct (Ascii.eqb c sep); cbn; [now rewrite IH|].
  destruct (Split s sep); cbn in *; congruence.
Qed.

Lemma Split_no_sep s : Count s sep = 0 → Split s sep = [s].
Proof.
  induction s as [|c s IH]; cbn; [reflexivity|].
  destruct (Ascii.eqb c sep); cbn; [discriminate|].
  intros H. now rewrite (IH H).
Qed.

Lemma Split_app host tag :
  Count host sep = 0 →
  Split (host +:+ String sep tag) sep = host :: Split tag sep.
Proof.
  induction host as [|c host IH]; rewrite ?append_nil, ?append_cons; cbn.
  - intros _. now rewrite Ascii.eqb_refl.
  - destruct (Ascii.eqb c sep); cbn; [discriminate|].
    intros H. now rewrite (IH H).
Qed.

Lemma Count_app s1 s2 : Count (s1 +:+ s2) sep = Count s1 sep + Count s2 sep.
Proof.
  induction s1 as [|c s1 IH]; rewrite ?append_nil, ?append_cons; cbn;
    [reflexivity|].
  rewrite IH. lia.
Qed.

(** A string with exactly one separator is [host ++ sep ++ tag]. *)
Lemma Count_one s :
  Count s sep = 1 →
  ∃ host tag, s = host +:+ String sep tag ∧
              Count host sep = 0 ∧ Count tag sep = 0.
Proof.
  induction s as [|c s IH]; cbn; [discriminate|].
  destruct (Ascii.eqb_spec c sep) as [->|Hc]; cbn.
  - intros H. exists EmptyString, s. split; [reflexivity|]. split; [reflexivity|lia].
  - intros H. destruct (IH H) as (host & tag & -> & Hh & Ht).
    exists (String c host), tag. rewrite append_cons. cbn.
    destruct (Ascii.eqb_spec c sep); [contradiction|]. auto.
Qed.

Lemma slice_from_app pre suf :
  slice_from (String.length pre) (pre +:+ suf) = suf.
Proof. induction pre; rewrite ?append_nil, ?append_cons; cbn; auto. Qed.

Lemma string_length_app s1 s2 :
  String.length (s1 +:+ s2) = String.length s1 + String.length s2.
Proof. induction s1; rewrite ?append_nil, ?append_cons; cbn; auto. Qed.

Lemma slice_from_split n s :
  (n ≤ String.length s)%nat →
  ∃ pre, s = pre +:+ slice_from n s ∧ String.length pre = n.
Proof.
  revert s; induction n as [|n IH]; intros s Hn; cbn.
  - exists EmptyString. auto.
  - destruct s as [|c s]; cbn in *; [lia|].
    destruct (IH s ltac:(lia)) as (pre & Hs & Hl).
    exists (String c pre). rewrite append_cons. cbn. split; [congruence | lia].
Qed.

(** [HasSuffix] holds exactly of the strings that end with the suffix. *)
Lemma HasSuffix_spec s suffix :
  HasSuffix s suffix = true ↔ ∃ pre, s = pre +:+ suffix.
Proof.
  unfold HasSuffix. rewrite andb_true_iff, Nat.leb_le, String.eqb_eq. split.
  - intros [Hlen Heq].
    destruct (slice_from_split (String.length s - String.length suffix) s
                ltac:(lia)) as (pre & Hs & _).
    exists pre. now rewrite Heq in Hs.
  - intros [pre ->]. rewrite string_length_app. split; [lia|].
    replace (String.length pre + String.length suffix - String.length suffix)
      with (String.length pre) by lia.
    apply slice_from_app.
Qed.
End Strings.

(** * Properties of the add-on reconciler *)
Section AddonReconcile.
Import defaultaddons.

(** [api.EKSResourceAccountID] as a parameter, and the collaborators. *)
Context (acct : string → string) (w : World).

Ltac unfold_go :=
  unfold mbind, M_bind, mret, M_ret, bind, modify, gets, ret, return_, panic.

Lemma Sprintf_prefix id : Sprintf_s awsNodeImagePrefixPTN id = id +:+ ".dkr.ecr.".
Proof. reflexivity. Qed.

Lemma rewriteImage_malformed region image t :
  Count image ":" ≠ 1 →
  rewriteImage acct region image t =
    (Return (false, Some (Errorf "unexpected image format %q for %q" [image; AWSNode])), t).
Proof.
  intros H. unfold rewriteImage. rewrite Split_length.
  destruct (Nat.eqb_spec (S (Count image ":")) 2) as [E|E]; [lia|]. reflexivity.
Qed.

Lemma rewriteImage_wellformed region host tag t :
  Count host ":" = 0 → Count tag ":" = 0 →
  rewriteImage acct region (host +:+ ":" +:+ tag) t =
    (Next (if HasSuffix host awsNodeImageSuffix
           then regionalImage acct region tag
           else host +:+ ":" +:+ tag), t).
Proof.
  intros Hh Ht. unfold rewriteImage.
  change (host +:+ ":" +:+ tag) with (host +:+ String ":" tag).
  rewrite (Split_app _ _ _ Hh), (Split_no_sep _ _ Ht). cbn.
  unfold_go. unfold index. cbn.
  destruct (HasSuffix host awsNodeImageSuffix); [|reflexivity].
  unfold regionalImage. now rewrite append_assoc.
Qed.

(** The rewrite never panics: a reference that passes the length test has
    both of the parts that are indexed. *)
Lemma rewriteImage_flow region image t :
  (∃ image', rewriteImage acct region image t = (Next image', t)) ∨
  (∃ e, rewriteImage acct region image t = (Return (false, Some e), t)).
Proof.
  destruct (decide (Count image ":" = 1)) as [H|H].
  - destruct (Count_one _ _ H) as (host & tag & -> & Hh & Ht).
    left. eexists. apply (rewriteImage_wellformed region host tag t Hh Ht).
  - right. eexists. apply rewriteImage_malformed, H.
Qed.

(** An iteration over a [DaemonSet] item with at least one container. *)
Lemma iteration_daemonSet region plan rawObj t ds c cs :
  NewRawResource w t rawObj = inr {| Kind := "DaemonSet"; InfoObject := DaemonSetV1 ds |} →
  Containers ds = c :: cs →
  iteration acct w region plan rawObj t =
    let t1 := app t [Call (NewRawResource_ rawObj)] in
    match rewriteImage acct region (Image c) t1 with
    | (Next image, _) => applied w plan (daemonSet c cs image) t1
    | (Return r, _) => (Return r, t1)
    | (Panic msg, _) => (Panic msg, t1)
    end.
Proof.
  intros HN HC. destruct ds as [containers]; cbn in HC; subst containers.
  unfold iteration, emit, logger, assertDaemonSet, index.
  unfold_go. cbn. rewrite HN. cbn.
  destruct (rewriteImage_flow region (Image c) (app t [Call (NewRawResource_ rawObj)]))
    as [[image' ->]|[e ->]]; [|reflexivity].
  unfold set_image, applied, daemonSet. cbn.
  destruct (CreateOrReplace w _ _ plan) as [status [e|]]; reflexivity.
Qed.

(** An iteration over an item of another kind than [DaemonSet]. *)
Lemma iteration_other region plan rawObj t resource :
  NewRawResource w t rawObj = inr resource →
  Kind resource ≠ "DaemonSet" →
  iteration acct w region plan rawObj t =
    let t1 := app t [Call (NewRawResource_ rawObj)] in
    if String.eqb (Kind resource) "CustomResourceDefinition" && plan
    then (Next tt, app t1 [Log Info (LogAction w resource plan "replaced") []])
    else applied w plan resource t1.
Proof.
  intros HN HK. unfold iteration, emit, logger. unfold_go. cbn. rewrite HN. cbn.
  destruct (String.eqb_spec (Kind resource) "DaemonSet"); [contradiction|]. cbn.
  destruct (String.eqb (Kind resource) "CustomResourceDefinition" && plan);
    [reflexivity|].
  unfold applied. destruct (CreateOrReplace w _ _ plan) as [status [e|]]; reflexivity.
Qed.

Lemma loop_cons region plan rawObj rest t :
  loop acct w region plan (rawObj :: rest) t =
    match iteration acct w region plan rawObj t with
    | (Next _, t') => loop acct w region plan rest t'
    | (Return r, t') => (Return r, t')
    | (Panic msg, t') => (Panic msg, t')
    end.
Proof. reflexivity. Qed.

Lemma iteration_not_apps_v1 region plan rawObj t doc :
  NewRawResource w t rawObj = inr {| Kind := "DaemonSet"; InfoObject := OtherObject doc |} →
  iteration acct w region plan rawObj t =
    (Panic "interface conversion", app t [Call (NewRawResource_ rawObj)]).
Proof.
  intros HN. unfold iteration, emit, assertDaemonSet. unfold_go. cbn.
  now rewrite HN.
Qed.

Lemma iteration_no_container region plan rawObj t :
  NewRawResource w t rawObj =
    inr {| Kind := "DaemonSet"; InfoObject := DaemonSetV1 {| Containers := [] |} |} →
  iteration acct w region plan rawObj t =
    (Panic "index out of range", app t [Call (NewRawResource_ rawObj)]).
Proof.
  intros HN. unfold iteration, emit, assertDaemonSet, index. unfold_go. cbn.
  now rewrite HN.
Qed.

Lemma iteration_error region plan rawObj t err :
  NewRawResource w t rawObj = inl err →
  iteration acct w region plan rawObj t =
    (Return (false, Some err), app t [Call (NewRawResource_ rawObj)]).
Proof.
  intros HN. unfold iteration, emit. unfold_go. cbn. now rewrite HN.
Qed.

Lemma applied_failing plan resource t :
  failing (applied w plan resource t).1 ∧ panics (applied w plan resource t).1 = false.
Proof.
  unfold applied. destruct (CreateOrReplace w t resource plan) as [status [e|]];
    cbn; eauto.
Qed.

(** Every way out of an iteration other than falling through to the next
    item reports [false] and an error, or is a panic. *)
Lemma iteration_failing region plan rawObj t :
  failing (iteration acct w region plan rawObj t).1.
Proof.
  destruct (NewRawResource w t rawObj) as [err|[kind obj]] eqn:HN.
  - rewrite (iteration_error _ _ _ _ _ HN). cbn. eauto.
  - destruct (decide (kind = "DaemonSet")) as [->|Hk].
    + destruct obj as [[[|c cs]]|doc].
      * now rewrite (iteration_no_container _ _ _ _ HN).
      * rewrite (iteration_daemonSet _ _ _ _ _ c cs HN eq_refl). cbn zeta.
        destruct (rewriteImage_flow region (Image c) (app t [Call (NewRawResource_ rawObj)]))
          as [[image' ->]|[e ->]]; [apply applied_failing | cbn; eauto].
      * now rewrite (iteration_not_apps_v1 _ _ _ _ _ HN).
    + rewrite (iteration_other _ _ _ _ _ HN Hk). cbn zeta.
      destruct (_ && plan); [exact I | apply applied_failing].
Qed.

Lemma loop_failing region plan items t :
  failing (loop acct w region plan items t).1.
Proof.
  revert t; induction items as [|rawObj rest IH]; intros t; [exact I|].
  rewrite loop_cons.
  pose proof (iteration_failing region plan rawObj t) as H.
  destruct (iteration acct w region plan rawObj t) as [[[]|r|msg] t']; cbn in *;
    [apply IH | exact H | exact I].
Qed.

(** Under the precondition no iteration panics. *)
Lemma iteration_total region plan rawObj t :
  daemonSetsHaveContainer w →
  panics (iteration acct w region plan rawObj t).1 = false.
Proof.
  intros Hpre.
  destruct (NewRawResource w t rawObj) as [err|[kind obj]] eqn:HN.
  - now rewrite (iteration_error _ _ _ _ _ HN).
  - destruct (decide (kind = "DaemonSet")) as [->|Hk].
    + destruct (Hpre _ _ _ HN eq_refl) as (c & cs & Hobj). cbn in Hobj. subst obj.
      rewrite (iteration_daemonSet _ _ _ _ _ c cs HN eq_refl). cbn zeta.
      destruct (rewriteImage_flow region (Image c) (app t [Call (NewRawResource_ rawObj)]))
        as [[image' ->]|[e ->]]; [apply applied_failing | reflexivity].
    + rewrite (iteration_other _ _ _ _ _ HN Hk). cbn zeta.
      destruct (_ && plan); [reflexivity | apply applied_failing].
Qed.

Lemma loop_total region plan items t :
  daemonSetsHaveContainer w →
  panics (loop acct w region plan items t).1 = false.
Proof.
  intros Hpre. revert t; induction items as [|rawObj rest IH]; intros t;
    [reflexivity|].
  rewrite loop_cons.
  pose proof (iteration_total region plan rawObj t Hpre) as H.
  destruct (iteration acct w region plan rawObj t) as [[[]|r|msg] t']; cbn in *;
    [apply IH | reflexivity | discriminate].
Qed.

(** [UpdateAWSNode] once the add-on is found and its manifest is loaded. *)
Lemma UpdateAWSNode_present region plan t items :
  GetDaemonSet w t NamespaceSystem AWSNode = None →
  LoadAsset w (app t [Call (GetDaemonSet_ NamespaceSystem AWSNode)]) AWSNode "yaml"
    = inr items →
  call (UpdateAWSNode acct w region plan) t =
    match loop acct w region plan items
            (app t [Call (GetDaemonSet_ NamespaceSystem AWSNode);
                    Call (LoadAsset_ AWSNode "yaml")]) with
    | (Next _, t') =>
        (Returned (plan, None),
         app t' [if plan then Log Critical "(plan) %q is not up-to-date" [AWSNode]
                 else Log Info "%q is now up-to-date" [AWSNode]])
    | (Return r, t') => (Returned r, t')
    | (Panic msg, t') => (Panicked msg, t')
    end.
Proof.
  intros HG HL. unfold call, UpdateAWSNode, emit, logger. unfold_go. cbn.
  rewrite HG. cbn. rewrite HL. cbn. rewrite <- app_assoc. cbn.
  destruct (loop acct w region plan items _) as [[[]|r|msg] t']; [|reflexivity..].
  destruct plan; reflexivity.
Qed.

Lemma UpdateAWSNode_load_error region plan t err :
  GetDaemonSet w t NamespaceSystem AWSNode = None →
  LoadAsset w (app t [Call (GetDaemonSet_ NamespaceSystem AWSNode)]) AWSNode "yaml"
    = inl err →
  call (UpdateAWSNode acct w region plan) t =
    (Returned (false, Some err),
     app t [Call (GetDaemonSet_ NamespaceSystem AWSNode);
            Call (LoadAsset_ AWSNode "yaml")]).
Proof.
  intros HG HL. unfold call, UpdateAWSNode, emit, logger. unfold_go. cbn.
  rewrite HG. cbn. rewrite HL. cbn. now rewrite <- app_assoc.
Qed.

Lemma UpdateAWSNode_absent region plan t err :
  GetDaemonSet w t NamespaceSystem AWSNode = Some err →
  call (UpdateAWSNode acct w region plan) t =
    if IsNotFound err
    then (Returned (false, None),
          app t [Call (GetDaemonSet_ NamespaceSystem AWSNode);
                 Log Warning "%q was not found" [AWSNode]])
    else (Returned (false, Some (Wrapf err "getting %q" [AWSNode])),
          app t [Call (GetDaemonSet_ NamespaceSystem AWSNode)]).
Proof.
  intros HG. unfold call, UpdateAWSNode, emit, logger. unfold_go. cbn.
  rewrite HG. destruct (IsNotFound err); cbn; [|reflexivity].
  now rewrite <- app_assoc.
Qed.

Lemma apply_calls_app tr tr' :
  apply_calls (app tr tr') = app (apply_calls tr) (apply_calls tr').
Proof. induction tr as [|[| |[]] tr IH]; cbn; rewrite ?IH; reflexivity. Qed.

Lemma load_calls_app tr tr' :
  load_calls (app tr tr') = app (load_calls tr) (load_calls tr').
Proof. induction tr as [|[| |[]] tr IH]; cbn; rewrite ?IH; reflexivity. Qed.

(** C7.  For a [DaemonSet] manifest item, the image of its first container
    decides the iteration.  A reference [host:tag] with exactly one
    separator whose host ends with the upstream suffix is replaced by the
    account of the region, the regional registry domain and the same tag,
    and the item is applied with that image; with exactly one separator
    and another host it is applied untouched; with no separator or more
    than one the update returns the format error and the remaining items
    are not processed. *)
Theorem C7_registry_rewrite region plan rawObj rest t ds c cs :
  NewRawResource w t rawObj = inr {| Kind := "DaemonSet"; InfoObject := DaemonSetV1 ds |} →
  Containers ds = c :: cs →
  let t1 := app t [Call (NewRawResource_ rawObj)] in
  (∀ host tag,
     Image c = host +:+ ":" +:+ tag → Count host ":" = 0 → Count tag ":" = 0 →
     (HasSuffix host awsNodeImageSuffix = true →
      iteration acct w region plan rawObj t =
        applied w plan
          (daemonSet c cs
             (acct region +:+ ".dkr.ecr." +:+ region +:+
              ".amazonaws.com/amazon-k8s-cni" +:+ ":" +:+ tag)) t1) ∧
     (HasSuffix host awsNodeImageSuffix = false →
      iteration acct w region plan rawObj t =
        applied w plan (daemonSet c cs (Image c)) t1)) ∧
  (Count (Image c) ":" = 1 →
   ∃ host tag, Image c = host +:+ ":" +:+ tag ∧
               Count host ":" = 0 ∧ Count tag ":" = 0) ∧
  (Count (Image c) ":" ≠ 1 →
   loop acct w region plan (rawObj :: rest) t =
     (Return (false,
              Some (Errorf "unexpected image format %q for %q" [Image c; AWSNode])),
      t1)).
Proof.
  intros HN HC t1. split.
  - intros host tag Himg Hh Ht.
    rewrite (iteration_daemonSet _ _ _ _ _ c cs HN HC). cbn zeta. fold t1.
    rewrite Himg, (rewriteImage_wellformed region host tag t1 Hh Ht).
    split; intros ->; reflexivity.
  - split; [apply Count_one|].
    intros Hcount. rewrite loop_cons.
    rewrite (iteration_daemonSet _ _ _ _ _ c cs HN HC). cbn zeta. fold t1.
    now rewrite (rewriteImage_malformed region (Image c) t1 Hcount).
Qed.

(** C8.  For a manifest item of kind [CustomResourceDefinition]: in plan
    mode the iteration logs the skip, makes no create-or-replace call and
    the loop goes on with the remaining items; in apply mode the item is
    applied like any other. *)
Theorem C8_crd_skipped_in_plan region rawObj rest t resource :
  NewRawResource w t rawObj = inr resource →
  Kind resource = "CustomResourceDefinition" →
  let t1 := app t [Call (NewRawResource_ rawObj)] in
  let skipped := app t1 [Log Info (LogAction w resource true "replaced") []] in
  iteration acct w region true rawObj t = (Next tt, skipped) ∧
  apply_calls skipped = apply_calls t ∧
  loop acct w region true (rawObj :: rest) t = loop acct w region true rest skipped ∧
  iteration acct w region false rawObj t = applied w false resource t1 ∧
  apply_calls (applied w false resource t1).2 = app (apply_calls t) [(resource, false)].
Proof.
  intros HN HK t1 skipped.
  assert (Hk : Kind resource ≠ "DaemonSet") by (rewrite HK; discriminate).
  pose proof apply_calls_app as Hcalls.
  pose proof (iteration_other region true rawObj t resource HN Hk) as Hplan.
  pose proof (iteration_other region false rawObj t resource HN Hk) as Happly.
  cbn zeta in Hplan, Happly. rewrite HK in Hplan, Happly. cbn in Hplan, Happly.
  fold t1 in Hplan, Happly. fold skipped in Hplan.
  split; [exact Hplan|]. split.
  { subst skipped t1. rewrite !Hcalls. cbn. now rewrite !app_nil_r. }
  split; [rewrite loop_cons, Hplan; reflexivity|].
  split; [exact Happly|].
  unfold applied. subst t1.
  destruct (CreateOrReplace w _ resource false) as [status [e|]]; cbn;
    rewrite !Hcalls; cbn; now rewrite ?app_nil_r.
Qed.

(** C9.  Whatever the region and the plan flag, when the [aws-node]
    DaemonSet is not found in the system namespace, [UpdateAWSNode]
    returns [false] and no error after logging a warning; it neither loads
    the manifest nor makes a create-or-replace call. *)
Theorem C9_not_installed region plan t err :
  GetDaemonSet w t NamespaceSystem AWSNode = Some err →
  IsNotFound err = true →
  let out := call (UpdateAWSNode acct w region plan) t in
  out =
    (Returned (false, None),
     app t [Call (GetDaemonSet_ "kube-system" "aws-node");
            Log Warning "%q was not found" ["aws-node"]]) ∧
  load_calls out.2 = load_calls t ∧
  apply_calls out.2 = apply_calls t.
Proof.
  intros HG HNF out. subst out.
  rewrite (UpdateAWSNode_absent region plan t err HG), HNF. cbn.
  split; [reflexivity|].
  rewrite load_calls_app, apply_calls_app. cbn. now rewrite !app_nil_r.
Qed.

(** C10.  The first container of a [DaemonSet] item is read without a
    check of the length: on an item whose container list is empty the
    index is out of range and the update panics there.  When every
    [DaemonSet] item carries an [*appsv1.DaemonSet] with at least one
    container, [UpdateAWSNode] returns. *)
Theorem C10_first_container_unchecked :
  (∀ region plan rawObj rest t,
     NewRawResource w t rawObj =
       inr {| Kind := "DaemonSet"; InfoObject := DaemonSetV1 {| Containers := [] |} |} →
     loop acct w region plan (rawObj :: rest) t =
       (Panic "index out of range", app t [Call (NewRawResource_ rawObj)])) ∧
  (daemonSetsHaveContainer w →
   ∀ region plan t, ∃ r t', call (UpdateAWSNode acct w region plan) t = (Returned r, t')).
Proof.
  split.
  - intros region plan rawObj rest t HN.
    now rewrite loop_cons, (iteration_no_container _ _ _ _ HN).
  - intros Hpre region plan t.
    destruct (GetDaemonSet w t NamespaceSystem AWSNode) as [err|] eqn:HG.
    + rewrite (UpdateAWSNode_absent region plan t err HG).
      destruct (IsNotFound err); eauto.
    + destruct (LoadAsset w (app t [Call (GetDaemonSet_ NamespaceSystem AWSNode)])
                  AWSNode "yaml") as [err|items] eqn:HL.
      * rewrite (UpdateAWSNode_load_error region plan t err HG HL). eauto.
      * rewrite (UpdateAWSNode_present region plan t items HG HL).
        pose proof (loop_total region plan items
          (app t [Call (GetDaemonSet_ NamespaceSystem AWSNode);
                  Call (LoadAsset_ AWSNode "yaml")]) Hpre) as H.
        destruct (loop acct w region plan items _) as [[[]|r|msg] t']; cbn in H;
          [eauto | eauto | discriminate].
Qed.

(** The [changed] verdict of the add-on reconciler is the plan flag: a run
    that finds the add-on and ends without an error returns [plan]. *)
Lemma UpdateAWSNode_changed region plan t b t' :
  GetDaemonSet w t NamespaceSystem AWSNode = None →
  call (UpdateAWSNode acct w region plan) t = (Returned (b, None), t') →
  b = plan.
Proof.
  intros HG Hrun.
  destruct (LoadAsset w (app t [Call (GetDaemonSet_ NamespaceSystem AWSNode)])
              AWSNode "yaml") as [err|items] eqn:HL.
  - rewrite (UpdateAWSNode_load_error region plan t err HG HL) in Hrun. discriminate.
  - rewrite (UpdateAWSNode_present region plan t items HG HL) in Hrun.
    pose proof (loop_failing region plan items
      (app t [Call (GetDaemonSet_ NamespaceSystem AWSNode);
              Call (LoadAsset_ AWSNode "yaml")])) as H.
    destruct (loop acct w region plan items _) as [[[]|[b' e]|msg] t'']; cbn in H.
    + congruence.
    + destruct H as [_ [e' ->]]. discriminate.
    + discriminate.
Qed.

End AddonReconcile.

(** * The properties at concrete inputs *)
Section Witnesses.
Import utils.

Lemma quietWorld_ready plan p q : ready quietWorld (command plan p q) cluster3.
Proof. repeat split. Defined.

(** [--private-access=false --public-access=false] on a cluster with both
    accesses: rejected, in plan mode and in apply mode. *)
Lemma C1_no_access_rejected_witness :
  let out := run api.ValidateClusterEndpointConfig quietWorld
               (command false true true) false false live_both in
  out.1 = Returned (Some ErrClusterEndpointNoAccess) ∧
  validate_calls (trace out.2) = [endpointsOf noAccess] ∧
  update_calls (trace out.2) = [] ∧
  remote out.2 = live_both.
Proof.
  apply (C1_no_access_rejected quietWorld (command false true true) false false
           live_both cluster3).
  - apply quietWorld_ready.
  - vm_compute; reflexivity.
  - vm_compute; discriminate.
Defined.

(** No flag given: nothing to do. *)
Lemma C3_up_to_date_witness :
  let out := run api.ValidateClusterEndpointConfig quietWorld
               (command false false false) false false live_public in
  out.1 = Returned None ∧
  changed out = false ∧
  last (trace out.2) =
    Some (Log Success
      "Kubernetes API endpoint access for cluster %q in %q is already up to date"
      ["cluster3"; "us-west-2"]) ∧
  validate_calls (trace out.2) = [] ∧
  update_calls (trace out.2) = [] ∧
  remote out.2 = live_public.
Proof.
  apply (C3_up_to_date api.ValidateClusterEndpointConfig quietWorld
           (command false false false) false false live_public cluster3).
  - apply quietWorld_ready.
  - vm_compute; reflexivity.
Defined.

(** [--private-access=true] in plan mode on a public-only cluster. *)
Lemma C4_plan_no_mutation_witness :
  let out := run api.ValidateClusterEndpointConfig quietWorld
               (command true true false) true false live_public in
  out.1 = Returned None ∧
  changed out = true ∧
  announced (trace out.2) =
    [["cluster3"; "us-west-2"; "privateAccess=true, publicAccess=true"]] ∧
  last (trace out.2) = Some (Call (LogPlanModeWarning_ true)) ∧
  update_calls (trace out.2) = [] ∧
  remote out.2 = live_public.
Proof.
  apply (C4_plan_no_mutation api.ValidateClusterEndpointConfig quietWorld
           (command true true false) true false live_public cluster3 live_both).
  - apply quietWorld_ready.
  - vm_compute; reflexivity.
  - vm_compute; discriminate.
  - vm_compute; reflexivity.
  - reflexivity.
Defined.

(** [--public-access=false] given explicitly, [--private-access] not given,
    on a cluster with both accesses. *)
Lemma C5_resolution_witness :
  let d := resolved (command false false true) false false live_both in
  let out := run api.ValidateClusterEndpointConfig quietWorld
               (command false false true) false false live_both in
  privateAccess d = true ∧ publicAccess d = false ∧
  cfg out.2 = withEndpoints privateOnly cluster3 ∧
  update_calls (trace out.2) = [endpointsOf privateOnly].
Proof.
  destruct (C5_resolution api.ValidateClusterEndpointConfig quietWorld
              (command false false true) false false live_both cluster3
              (quietWorld_ready false false true)) as (Hp & Hq & _ & Hdiff).
  destruct Hdiff as (Hcfg & _ & _ & Hupd); [vm_compute; discriminate|].
  split; [exact Hp|]. split; [exact Hq|]. split; [exact Hcfg|].
  apply Hupd; reflexivity.
Defined.

(** [--public-access=false] in apply mode on a cluster with both accesses. *)
Lemma C6_private_only_warns_witness :
  let out := run api.ValidateClusterEndpointConfig quietWorld
               (command false false true) false false live_both in
  LogError Warning ErrClusterEndpointPrivateOnly ∈ trace out.2 ∧
  update_calls (trace out.2) = [endpointsOf privateOnly] ∧
  out.1 = Returned None ∧
  remote out.2 = privateOnly.
Proof.
  destruct (C6_private_only_warns quietWorld (command false false true) false false
              live_both cluster3 (quietWorld_ready false false true))
    as (Hwarn & _ & Happly);
    [vm_compute; reflexivity | vm_compute; discriminate |].
  destruct (Happly eq_refl) as (Hupd & Hres & Hrem).
  split; [exact Hwarn|]. split; [exact Hupd|]. split; [exact Hres|].
  apply Hrem; reflexivity.
Defined.

End Witnesses.

Section AddonWitnesses.
Import defaultaddons.

(** The upstream image, rewritten for [eu-west-1]. *)
Lemma C7_registry_rewrite_witness :
  let c := {| ContainerName := "aws-node"; Image := upstreamImage |} in
  iteration accountID (installed (node upstreamImage)) "eu-west-1" false "daemonset" [] =
    applied (installed (node upstreamImage)) false
      (daemonSet c []
         "602401143452.dkr.ecr.eu-west-1.amazonaws.com/amazon-k8s-cni:v1.7.0")
      [Call (NewRawResource_ "daemonset")].
Proof.
  intros c.
  destruct (C7_registry_rewrite accountID (installed (node upstreamImage))
              "eu-west-1" false "daemonset" ["crd"] []
              {| Containers := node upstreamImage |} c [] eq_refl eq_refl)
    as (Hone & _ & _).
  destruct (Hone "123456789012.dkr.ecr.us-west-2.amazonaws.com/amazon-k8s-cni" "v1.7.0"
              eq_refl eq_refl eq_refl) as [Hrewrite _].
  apply Hrewrite. reflexivity.
Defined.

(** A reference with two separators. *)
Lemma C7_format_error_example :
  run accountID (installed (node "registry:5000/amazon-k8s-cni:v1.7.0")) "eu-west-1" false =
    (Returned (false,
               Some (Errorf "unexpected image format %q for %q"
                       ["registry:5000/amazon-k8s-cni:v1.7.0"; "aws-node"])),
     [Call (GetDaemonSet_ "kube-system" "aws-node");
      Call (LoadAsset_ "aws-node" "yaml");
      Call (NewRawResource_ "daemonset")]).
Proof. vm_compute. reflexivity. Qed.

(** The custom resource definition of the manifest, in plan mode and in
    apply mode. *)
Lemma C8_crd_skipped_in_plan_witness :
  let w := installed (node upstreamImage) in
  iteration accountID w "eu-west-1" true "crd" [] =
    (Next tt, [Call (NewRawResource_ "crd"); Log Info "(plan) would have replaced" []]) ∧
  iteration accountID w "eu-west-1" false "crd" [] =
    (Next tt, [Call (NewRawResource_ "crd"); Call (CreateOrReplace_ eniConfigCRD false);
               Log Info "replaced" []]).
Proof.
  intros w.
  destruct (C8_crd_skipped_in_plan accountID w "eu-west-1" "crd" [] [] eniConfigCRD
              eq_refl eq_refl) as (Hplan & _ & _ & Happly & _).
  split; [exact Hplan | exact Happly].
Defined.

Lemma C9_not_installed_witness :
  run accountID notInstalled "us-west-2" true =
    (Returned (false, None),
     [Call (GetDaemonSet_ "kube-system" "aws-node");
      Log Warning "%q was not found" ["aws-node"]]).
Proof.
  exact (proj1 (C9_not_installed accountID notInstalled "us-west-2" true []
                  (StatusNotFound "aws-node") eq_refl eq_refl)).
Defined.

Lemma installed_has_container c cs : daemonSetsHaveContainer (installed (c :: cs)).
Proof.
  intros t rawObj r HN HK. cbn in HN.
  destruct (String.eqb rawObj "daemonset"); injection HN as <-;
    [eauto | discriminate HK].
Defined.

(** A [DaemonSet] without containers panics; the stock manifest returns. *)
Lemma C10_first_container_unchecked_witness :
  run accountID (installed []) "us-west-2" false =
    (Panicked "index out of range",
     [Call (GetDaemonSet_ "kube-system" "aws-node");
      Call (LoadAsset_ "aws-node" "yaml");
      Call (NewRawResource_ "daemonset")]) ∧
  (∃ r t', run accountID (installed (node upstreamImage)) "us-west-2" false
           = (Returned r, t')).
Proof.
  split.
  - unfold run.
    rewrite (UpdateAWSNode_present accountID (installed []) "us-west-2" false []
               ["daemonset"; "crd"] eq_refl eq_refl).
    rewrite (proj1 (C10_first_container_unchecked accountID (installed []))
               "us-west-2" false "daemonset" ["crd"] _ eq_refl).
    reflexivity.
  - apply (proj2 (C10_first_container_unchecked accountID (installed (node upstreamImage)))
             (installed_has_container _ _) "us-west-2" false []).
Defined.

End AddonWitnesses.

(** * The scenarios of the specification *)

(** Scenario 1: current private=false, public=true; [--private-access=true]
    alone resolves to both true, passes validation without a warning and is
    applied. *)
Example scenario_1 :
  let out := utils.run api.ValidateClusterEndpointConfig utils.quietWorld
               (utils.command false true false) true false utils.live_public in
  out.1 = Returned None ∧
  utils.update_calls (utils.trace out.2) = [utils.endpointsOf utils.live_both] ∧
  utils.remote out.2 = utils.live_both ∧
  utils.changed out = true.
Proof. vm_compute. repeat split. Qed.

(** Scenario 2: current private=true, public=false; both flags given as
    false: the no-access error, no mutation. *)
Example scenario_2 :
  let out := utils.run api.ValidateClusterEndpointConfig utils.quietWorld
               (utils.command false true true) false false utils.privateOnly in
  out.1 = Returned (Some ErrClusterEndpointNoAccess) ∧
  utils.update_calls (utils.trace out.2) = [] ∧
  utils.remote out.2 = utils.privateOnly.
Proof. vm_compute. repeat split. Qed.

(** Scenario 3: the add-on's DaemonSet is absent. *)
Example scenario_3 :
  (defaultaddons.run defaultaddons.accountID defaultaddons.notInstalled "us-west-2" false).1
    = Returned (false, None).
Proof. vm_compute. reflexivity. Qed.

(** * Further properties of the endpoint-access reconciler *)
Section EndpointErrors.
Import utils.
Context (validate : api.ClusterConfig → option error) (w : World).

Ltac unfold_go :=
  unfold run, call, doUpdateClusterEndpoints, doLoad, doNewCtl, doCheckAuth,
    doCanUpdate, GetCurrentClusterConfigForEndpoints, doValidate,
    UpdateClusterConfigForEndpoints, logger, emit, check;
  unfold mbind, M_bind, mret, M_ret, bind, modify, gets, ret, return_;
  cbn -[accessFlagsSet].

Lemma run_load_fails cmd np nq live e :
  Load w (ClusterConfig cmd) = inl e →
  run validate w cmd np nq live =
    (Returned (Some e),
     {| cfg := ClusterConfig cmd; remote := live; trace := [Call Load_] |}).
Proof. intros HL. unfold_go. now rewrite HL. Qed.

Lemma run_ctl_fails cmd np nq live c e :
  Load w (ClusterConfig cmd) = inr c → NewCtl w = Some e →
  run validate w cmd np nq live =
    (Returned (Some e),
     {| cfg := c; remote := live; trace := [Call Load_; Call NewCtl_] |}).
Proof. intros HL HN. unfold_go. rewrite HL; cbn. now rewrite HN. Qed.

Lemma run_auth_fails cmd np nq live c e :
  Load w (ClusterConfig cmd) = inr c → NewCtl w = None → CheckAuth w = Some e →
  run validate w cmd np nq live =
    (Returned (Some e),
     {| cfg := c; remote := live;
        trace := [Call Load_; Call NewCtl_;
                  Log Info "using region %s" [api.Region (api.Metadata c)];
                  Call CheckAuth_] |}).
Proof.
  intros HL HN HA. unfold_go. rewrite HL; cbn. rewrite HN; cbn. now rewrite HA.
Qed.

Lemma run_cannot_update cmd np nq live c err :
  Load w (ClusterConfig cmd) = inr c → NewCtl w = None → CheckAuth w = None →
  CanUpdate w c = (false, err) →
  run validate w cmd np nq live =
    (Returned err,
     {| cfg := c; remote := live;
        trace := [Call Load_; Call NewCtl_;
                  Log Info "using region %s" [api.Region (api.Metadata c)];
                  Call CheckAuth_; Call CanUpdate_] |}).
Proof.
  intros HL HN HA HC. unfold_go. rewrite HL; cbn. rewrite HN; cbn.
  rewrite HA; cbn. now rewrite HC.
Qed.

Lemma run_describe_fails cmd np nq live c e :
  Load w (ClusterConfig cmd) = inr c → NewCtl w = None → CheckAuth w = None →
  (CanUpdate w c).1 = true → GetCurrentErr w = Some e →
  run validate w cmd np nq live =
    (Returned (Some e),
     {| cfg := c; remote := live;
        trace := [Call Load_; Call NewCtl_;
                  Log Info "using region %s" [api.Region (api.Metadata c)];
                  Call CheckAuth_; Call CanUpdate_;
                  Call GetCurrentClusterConfigForEndpoints_] |}).
Proof.
  intros HL HN HA HC HG. unfold_go. rewrite HL; cbn. rewrite HN; cbn.
  rewrite HA; cbn. destruct (CanUpdate w c) as [ok e']; cbn in HC; subst ok; cbn.
  now rewrite HG.
Qed.

(** Every run, whatever the collaborators answer: either the update API is
    not called and the cluster is as before, or it is called once, in apply
    mode, with the resolved state, which differs from the current one and
    passed the validation run on it. *)
Lemma run_mutation cmd np nq live :
  let out := run validate w cmd np nq live in
  let d := resolved cmd np nq live in
  (update_calls (trace out.2) = [] ∧ remote out.2 = live) ∨
  (update_calls (trace out.2) = [endpointsOf d] ∧
   validate_calls (trace out.2) = [endpointsOf d] ∧
   (remote out.2 = live ∨ remote out.2 = d) ∧
   Plan cmd = false ∧ d ≠ live ∧
   ∃ c, ready w cmd c ∧ accepted (validate (withEndpoints d c)) = true).
Proof.
  intros out d. subst out d.
  destruct (Load w (ClusterConfig cmd)) as [e0|c] eqn:HL.
  { left. rewrite (run_load_fails cmd np nq live e0 HL). auto. }
  destruct (NewCtl w) as [e0|] eqn:HN.
  { left. rewrite (run_ctl_fails cmd np nq live c e0 HL HN). auto. }
  destruct (CheckAuth w) as [e0|] eqn:HA.
  { left. rewrite (run_auth_fails cmd np nq live c e0 HL HN HA). auto. }
  destruct (CanUpdate w c) as [[] e1] eqn:HC.
  2:{ left. rewrite (run_cannot_update cmd np nq live c e1 HL HN HA HC). auto. }
  destruct (GetCurrentErr w) as [e0|] eqn:HG.
  { left. rewrite (run_describe_fails cmd np nq live c e0 HL HN HA
                     ltac:(now rewrite HC) HG). auto. }
  assert (Hready : ready w cmd c).
  { repeat split; auto. now rewrite HC. }
  remember (resolved cmd np nq live) as d eqn:Hres. symmetry in Hres.
  destruct (decide (d = live)) as [Hd|Hd].
  { left. subst d. rewrite (run_same validate w _ _ _ _ _ Hready Hd). auto. }
  destruct (accepted (validate (withEndpoints d c))) eqn:Hacc.
  - destruct (Plan cmd) eqn:Hplan.
    + left. rewrite (run_plan validate w _ _ _ _ _ _ Hready Hres Hd Hacc Hplan).
      destruct (validate (withEndpoints d c)); cbn; auto.
    + right.
      assert (∃ c0, ready w cmd c0 ∧ accepted (validate (withEndpoints d c0)) = true)
        as Hex by eauto.
      rewrite (run_apply validate w _ _ _ _ _ _ Hready Hres Hd Hacc Hplan).
      destruct (validate (withEndpoints d c)), (UpdateErr w (endpointsOf d)); cbn;
        repeat split; auto.
  - left. unfold accepted in Hacc.
    destruct (validate (withEndpoints d c)) as [e|] eqn:Hv; [|discriminate].
    apply bool_decide_eq_false in Hacc.
    rewrite (run_rejected validate w _ _ _ _ _ _ _ Hready Hres Hd Hv Hacc). auto.
Qed.

Lemma resolved_idem cmd np nq live :
  resolved cmd np nq (resolved cmd np nq live) = resolved cmd np nq live.
Proof.
  unfold resolved; cbn.
  destruct (supplied cmd "private-access"), (supplied cmd "public-access");
    reflexivity.
Qed.

Lemma endpointsOf_inj d d' : endpointsOf d = endpointsOf d' → d = d'.
Proof. destruct d, d'; unfold endpointsOf; cbn. intros [= -> ->]. reflexivity. Qed.

(** A run in apply mode that reports success leaves the cluster in the
    resolved state. *)
Lemma run_apply_success cmd np nq live c :
  ready w cmd c → Plan cmd = false →
  (run validate w cmd np nq live).1 = Returned None →
  remote (run validate w cmd np nq live).2 = resolved cmd np nq live.
Proof.
  intros Hready Hplan.
  remember (resolved cmd np nq live) as d eqn:Hres. symmetry in Hres.
  destruct (decide (d = live)) as [Hd|Hd].
  { subst d. rewrite (run_same validate w _ _ _ _ _ Hready Hd). cbn. auto. }
  destruct (accepted (validate (withEndpoints d c))) eqn:Hacc.
  - rewrite (run_apply validate w _ _ _ _ _ _ Hready Hres Hd Hacc Hplan). cbn zeta.
    destruct (UpdateErr w (endpointsOf d)); cbn; [discriminate | reflexivity].
  - unfold accepted in Hacc.
    destruct (validate (withEndpoints d c)) as [e|] eqn:Hv; [|discriminate].
    apply bool_decide_eq_false in Hacc.
    rewrite (run_rejected validate w _ _ _ _ _ _ _ Hready Hres Hd Hv Hacc).
    discriminate.
Qed.

(** X1.  A collaborator that fails before the current state is read ends the
    run with its own error.  The trace shows what had been called until
    then: the later collaborators are not called, nothing is validated or
    updated, and the configuration is what the loader left. *)
Theorem X1_preamble_failure cmd np nq live :
  let out := run validate w cmd np nq live in
  (∀ e, Load w (ClusterConfig cmd) = inl e →
     out = (Returned (Some e),
            {| cfg := ClusterConfig cmd; remote := live; trace := [Call Load_] |})) ∧
  (∀ c e, Load w (ClusterConfig cmd) = inr c → NewCtl w = Some e →
     out = (Returned (Some e),
            {| cfg := c; remote := live; trace := [Call Load_; Call NewCtl_] |})) ∧
  (∀ c e, Load w (ClusterConfig cmd) = inr c → NewCtl w = None →
     CheckAuth w = Some e →
     out = (Returned (Some e),
            {| cfg := c; remote := live;
               trace := [Call Load_; Call NewCtl_;
                         Log Info "using region %s" [api.Region (api.Metadata c)];
                         Call CheckAuth_] |})) ∧
  (∀ c e, Load w (ClusterConfig cmd) = inr c → NewCtl w = None →
     CheckAuth w = None → (CanUpdate w c).1 = true →
     GetCurrentErr w = Some e →
     out = (Returned (Some e),
            {| cfg := c; remote := live;
               trace := [Call Load_; Call NewCtl_;
                         Log Info "using region %s" [api.Region (api.Metadata c)];
                         Call CheckAuth_; Call CanUpdate_;
                         Call GetCurrentClusterConfigForEndpoints_] |})).
Proof.
  intros out. subst out. split; [|split; [|split]].
  - intros e. apply run_load_fails.
  - intros c e. apply run_ctl_fails.
  - intros c e. apply run_auth_fails.
  - intros c e. apply run_describe_fails.
Qed.

(** X2.  When [CanUpdate] answers "no", the run returns the error that came
    with the answer as it is, so with a nil error the command ends as a
    success; the current state is not read and nothing is validated or
    updated. *)
Theorem X2_cannot_update cmd np nq live c err :
  Load w (ClusterConfig cmd) = inr c → NewCtl w = None → CheckAuth w = None →
  CanUpdate w c = (false, err) →
  let out := run validate w cmd np nq live in
  out.1 = Returned err ∧
  last (trace out.2) = Some (Call CanUpdate_) ∧
  validate_calls (trace out.2) = [] ∧
  update_calls (trace out.2) = [] ∧
  cfg out.2 = c.
Proof.
  intros HL HN HA HC out. subst out.
  rewrite (run_cannot_update cmd np nq live c err HL HN HA HC). cbn. auto.
Qed.

(** X3.  Whatever the collaborators answer, a run calls the update API at
    most once; when it does, the run is in apply mode, the argument is the
    resolved state, that state differs from the current one, the preamble
    succeeded and the validation run on that state passed. *)
Theorem X3_update_discipline cmd np nq live :
  let out := run validate w cmd np nq live in
  let d := resolved cmd np nq live in
  update_calls (trace out.2) = [] ∨
  (update_calls (trace out.2) = [endpointsOf d] ∧
   validate_calls (trace out.2) = [endpointsOf d] ∧
   Plan cmd = false ∧ d ≠ live ∧
   ∃ c, ready w cmd c ∧ accepted (validate (withEndpoints d c)) = true).
Proof.
  intros out d. subst out d.
  destruct (run_mutation cmd np nq live) as [[H _]|(H1 & H2 & _ & H3 & H4 & H5)];
    [left | right]; auto.
Qed.

(** X4.  When the update API fails in apply mode, the run returns that error
    right after the call: the completion is not logged, and the
    configuration keeps the desired endpoints that were stored before the
    call. *)
Theorem X4_update_failure cmd np nq live c d e :
  ready w cmd c →
  resolved cmd np nq live = d → d ≠ live →
  accepted (validate (withEndpoints d c)) = true →
  Plan cmd = false →
  UpdateErr w (endpointsOf d) = Some e →
  let out := run validate w cmd np nq live in
  out.1 = Returned (Some e) ∧
  last (trace out.2) = Some (Call (UpdateClusterConfigForEndpoints_ (endpointsOf d))) ∧
  update_calls (trace out.2) = [endpointsOf d] ∧
  cfg out.2 = withEndpoints d c.
Proof.
  intros Hready Hres Hd Hacc Hplan Hu out. subst out.
  rewrite (run_apply validate w _ _ _ _ _ _ Hready Hres Hd Hacc Hplan). cbn zeta.
  rewrite Hu. cbn.
  destruct (validate (withEndpoints d c)); cbn; auto.
Qed.

(** X5.  Running the command again after a successful apply run is a no-op:
    the second run, which reads the state the first one left, reports
    "already up to date" and calls neither the validator nor the update
    API. *)
Theorem X5_rerun_is_noop cmd np nq live c :
  ready w cmd c → Plan cmd = false →
  let first := run validate w cmd np nq live in
  first.1 = Returned None →
  let again := run validate w cmd np nq (remote first.2) in
  again.1 = Returned None ∧
  changed again = false ∧
  validate_calls (trace again.2) = [] ∧
  update_calls (trace again.2) = [] ∧
  remote again.2 = remote first.2.
Proof.
  intros Hready Hplan first Hok again. subst first again.
  rewrite (run_apply_success cmd np nq live c Hready Hplan Hok).
  rewrite (run_same validate w _ _ _ _ _ Hready (resolved_idem cmd np nq live)).
  unfold changed. cbn. auto.
Qed.

(** X6.  With a validator that rejects the state without any access, no run
    makes a reachable cluster unreachable: the update API is never called
    with both accesses false and the cluster does not end in that state. *)
Theorem X6_never_locked_out cmd np nq live :
  (∀ c, accepted (validate (withEndpoints noAccess c)) = false) →
  live ≠ noAccess →
  let out := run validate w cmd np nq live in
  (endpointsOf noAccess ∉ update_calls (trace out.2)) ∧
  remote out.2 ≠ noAccess.
Proof.
  intros Hrej Hlive out. subst out.
  destruct (run_mutation cmd np nq live)
    as [[H1 H2]|(H1 & _ & Hrem & _ & _ & c & _ & Hacc)].
  - rewrite H1, H2. split; [apply not_elem_of_nil | exact Hlive].
  - assert (Hd : resolved cmd np nq live ≠ noAccess).
    { intros Heq. rewrite Heq, Hrej in Hacc. discriminate. }
    rewrite H1. split.
    + rewrite list_elem_of_singleton. intros Heq. apply Hd.
      symmetry. now apply endpointsOf_inj.
    + destruct Hrem as [->| ->]; assumption.
Qed.

(** X7.  When the access flags are not registered in the flag set that
    [accessFlagsSet] looks into, both lookups give nil: the values passed to
    the command are ignored whatever they are and the run changes nothing. *)
Theorem X7_unregistered_flags_ignored cmd np nq live c :
  FlagSetGroup cmd !! flagGroup = None →
  ready w cmd c →
  let out := run validate w cmd np nq live in
  accessFlagsSet cmd = (false, false) ∧
  out.1 = Returned None ∧
  changed out = false ∧
  update_calls (trace out.2) = [] ∧
  cfg out.2 = c.
Proof.
  intros Hfs Hready out. subst out.
  assert (Hflags : accessFlagsSet cmd = (false, false)).
  { unfold accessFlagsSet, InFlagSet. rewrite Hfs. cbn. now rewrite lookup_empty. }
  assert (Hres : resolved cmd np nq live = live).
  { rewrite accessFlagsSet_supplied in Hflags. injection Hflags as Hp Hq.
    unfold resolved. rewrite Hp, Hq. now destruct live. }
  rewrite (run_same validate w _ _ _ _ _ Hready Hres). unfold changed. cbn. auto.
Qed.

End EndpointErrors.

(** * Further properties of the add-on reconciler *)
Section AddonLoop.
Import defaultaddons addon_traces.
Context (acct : string → string) (w : World).

Lemma built_app tr tr' : built (app tr tr') = app (built tr) (built tr').
Proof. induction tr as [|[| |[]] tr IH]; cbn; rewrite ?IH; reflexivity. Qed.

Lemma applied_added plan resource t :
  ∃ new, (applied w plan resource t).2 = app t new ∧
         added plan (applied w plan resource t).1 new.
Proof.
  unfold applied. destruct (CreateOrReplace w t resource plan) as [status [e|]]; cbn.
  - eexists. split; [reflexivity | constructor].
  - eexists. split; [rewrite <- app_assoc; reflexivity | constructor].
Qed.

(** The shape of every iteration. *)
Lemma iteration_added region plan rawObj t :
  ∃ new,
    (iteration acct w region plan rawObj t).2
      = app t (Call (NewRawResource_ rawObj) :: new) ∧
    added plan (iteration acct w region plan rawObj t).1 new.
Proof.
  assert (Hstep : ∀ resource,
    ∃ new, (applied w plan resource (app t [Call (NewRawResource_ rawObj)])).2
             = app t (Call (NewRawResource_ rawObj) :: new) ∧
           added plan (applied w plan resource
                         (app t [Call (NewRawResource_ rawObj)])).1 new).
  { intros resource.
    destruct (applied_added plan resource (app t [Call (NewRawResource_ rawObj)]))
      as (new & Ht & Ha).
    exists new. split; [|exact Ha]. rewrite Ht, <- app_assoc. reflexivity. }
  destruct (NewRawResource w t rawObj) as [err|[kind obj]] eqn:HN.
  - rewrite (iteration_error _ _ _ _ _ _ _ HN). cbn.
    exists []. split; [reflexivity | constructor; discriminate].
  - destruct (decide (kind = "DaemonSet")) as [->|Hk].
    + destruct obj as [[[|c cs]]|doc].
      * rewrite (iteration_no_container _ _ _ _ _ _ HN). cbn.
        exists []. split; [reflexivity | constructor; discriminate].
      * rewrite (iteration_daemonSet _ _ _ _ _ _ _ c cs HN eq_refl). cbn zeta.
        destruct (rewriteImage_flow acct region (Image c)
                    (app t [Call (NewRawResource_ rawObj)]))
          as [[image' ->]|[e ->]]; [apply Hstep|].
        exists []. split; [reflexivity | constructor; discriminate].
      * rewrite (iteration_not_apps_v1 _ _ _ _ _ _ _ HN). cbn.
        exists []. split; [reflexivity | constructor; discriminate].
    + rewrite (iteration_other _ _ _ _ _ _ _ HN Hk). cbn zeta.
      destruct (_ && plan) eqn:Hskip; [|apply Hstep].
      apply andb_true_iff in Hskip as [_ ->].
      eexists. split; [rewrite <- app_assoc; reflexivity | now constructor].
Qed.

(** The loop over a manifest that is split in two. *)
Lemma loop_app region plan items items' t :
  loop acct w region plan (app items items') t =
    match loop acct w region plan items t with
    | (Next _, t') => loop acct w region plan items' t'
    | (Return r, t') => (Return r, t')
    | (Panic msg, t') => (Panic msg, t')
    end.
Proof.
  revert t; induction items as [|rawObj rest IH]; intros t; [reflexivity|].
  cbn [app]. rewrite !loop_cons.
  destruct (iteration acct w region plan rawObj t) as [[[]|r|msg] t'];
    [apply IH | reflexivity..].
Qed.

Lemma added_facts plan f new :
  added plan f new →
  built new = [] ∧
  Forall (λ c, c.2 = plan) (apply_calls new) ∧
  (length (apply_calls new) ≤ 1)%nat ∧
  (f = Next tt → plan = false → length (apply_calls new) = 1).
Proof.
  intros [f' Hf|line ->|r e|r status]; cbn; repeat split; auto;
    try (intros; congruence); repeat constructor.
Qed.

(** What a loop adds to the trace: it builds a prefix of the manifest, in
    order, the whole of it when it falls through; it makes at most one
    create-or-replace call per item it built, each with the plan flag, and
    exactly one per item when it falls through in apply mode. *)
Lemma loop_added region plan items t :
  ∃ k new,
    (loop acct w region plan items t).2 = app t new ∧
    built new = take k items ∧ (k ≤ length items)%nat ∧
    Forall (λ c, c.2 = plan) (apply_calls new) ∧
    (length (apply_calls new) ≤ k)%nat ∧
    ((loop acct w region plan items t).1 = Next tt →
     k = length items ∧ (plan = false → length (apply_calls new) = length items)) ∧
    ((loop acct w region plan items t).1 ≠ Next tt → 0 < k).
Proof.
  revert t; induction items as [|rawObj rest IH]; intros t.
  - exists 0, []. cbn. rewrite app_nil_r. repeat split; auto. congruence.
  - rewrite loop_cons.
    destruct (iteration_added region plan rawObj t) as (new & Ht & Hadd).
    destruct (added_facts _ _ _ Hadd) as (Hb & Hflag & Hlen & Hone).
    destruct (iteration acct w region plan rawObj t) as [f t'] eqn:Hit.
    cbn in Ht, Hadd, Hone. subst t'.
    destruct f as [[]|r|msg].
    + destruct (IH (app t (Call (NewRawResource_ rawObj) :: new)))
        as (k & new' & Ht' & Hb' & Hk & Hflag' & Hlen' & Hnext & Hstop).
      exists (S k), (Call (NewRawResource_ rawObj) :: app new new').
      rewrite Ht', <- app_assoc. cbn.
      rewrite built_app, apply_calls_app, Hb, Hb'. cbn.
      rewrite length_app.
      split; [reflexivity|]. split; [reflexivity|]. split; [lia|].
      split; [apply Forall_app; auto|]. split; [lia|]. split.
      * intros Hf. destruct (Hnext Hf) as [-> Hall]. split; [reflexivity|].
        intros Hp. rewrite (Hall Hp), (Hone eq_refl Hp). reflexivity.
      * intros _. lia.
    + exists 1, (Call (NewRawResource_ rawObj) :: new). cbn.
      rewrite Hb, take_0.
      repeat split; auto; try lia; intros; congruence.
    + exists 1, (Call (NewRawResource_ rawObj) :: new). cbn.
      rewrite Hb, take_0.
      repeat split; auto; try lia; intros; congruence.
Qed.

(** What a call of [UpdateAWSNode] adds to the trace once the add-on is
    found and the manifest [items] is loaded. *)
Lemma call_added region plan t items :
  GetDaemonSet w t NamespaceSystem AWSNode = None →
  LoadAsset w (app t [Call (GetDaemonSet_ NamespaceSystem AWSNode)]) AWSNode "yaml"
    = inr items →
  ∃ k new,
    (call (UpdateAWSNode acct w region plan) t).2 = app t new ∧
    built new = take k items ∧ (k ≤ length items)%nat ∧
    Forall (λ c, c.2 = plan) (apply_calls new) ∧
    (length (apply_calls new) ≤ k)%nat ∧
    (∀ b, (call (UpdateAWSNode acct w region plan) t).1 = Returned (b, None) →
          k = length items ∧
          (plan = false → length (apply_calls new) = length items)).
Proof.
  intros HG HL. rewrite (UpdateAWSNode_present acct w region plan t items HG HL).
  set (t0 := app t [Call (GetDaemonSet_ NamespaceSystem AWSNode);
                    Call (LoadAsset_ AWSNode "yaml")]).
  destruct (loop_added region plan items t0)
    as (k & new & Ht & Hb & Hk & Hflag & Hlen & Hnext & _).
  pose proof (loop_failing acct w region plan items t0) as Hfail.
  destruct (loop acct w region plan items t0) as [[[]|[b' e]|msg] t'];
    cbn in Ht, Hnext, Hfail; subst t' t0; rewrite <- !app_assoc; cbn.
  - eexists k, _. split; [reflexivity|]. cbn.
    rewrite built_app, apply_calls_app, Hb.
    assert (Hlast : ∀ e : event call_,
              (e = Log Critical "(plan) %q is not up-to-date" [AWSNode] ∨
               e = Log Info "%q is now up-to-date" [AWSNode]) →
              built [e] = [] ∧ apply_calls [e] = []).
    { intros e [-> | ->]; auto. }
    destruct (Hlast (if plan then Log Critical "(plan) %q is not up-to-date" [AWSNode]
                     else Log Info "%q is now up-to-date" [AWSNode]))
      as [-> ->]; [destruct plan; auto|].
    rewrite !app_nil_r.
    repeat split; auto; apply Hnext; reflexivity.
  - eexists k, _. split; [reflexivity|]. cbn.
    destruct Hfail as [_ [e' ->]].
    repeat split; auto; discriminate.
  - eexists k, _. split; [reflexivity|]. cbn.
    repeat split; auto; discriminate.
Qed.

(** Whatever the collaborators answer, a call only extends the trace, and
    every create-or-replace call it makes carries its plan flag. *)
Lemma call_flags region plan t :
  ∃ new,
    (call (UpdateAWSNode acct w region plan) t).2 = app t new ∧
    Forall (λ c, c.2 = plan) (apply_calls new).
Proof.
  destruct (GetDaemonSet w t NamespaceSystem AWSNode) as [err|] eqn:HG.
  { rewrite (UpdateAWSNode_absent acct w region plan t err HG).
    destruct (IsNotFound err); eexists; (split; [reflexivity | constructor]). }
  destruct (LoadAsset w (app t [Call (GetDaemonSet_ NamespaceSystem AWSNode)])
              AWSNode "yaml") as [err|items] eqn:HL.
  { rewrite (UpdateAWSNode_load_error acct w region plan t err HG HL).
    eexists; (split; [reflexivity | constructor]). }
  destruct (call_added region plan t items HG HL)
    as (k & new & Ht & _ & _ & Hflag & _).
  exists new. auto.
Qed.

(** X8.  The manifest is handled strictly in its order: the items handed to
    [NewRawResource] by a call are a prefix of the loaded manifest, the
    whole manifest when the call returns without an error. *)
Theorem X8_manifest_in_order region plan t items :
  GetDaemonSet w t NamespaceSystem AWSNode = None →
  LoadAsset w (app t [Call (GetDaemonSet_ NamespaceSystem AWSNode)]) AWSNode "yaml"
    = inr items →
  let out := call (UpdateAWSNode acct w region plan) t in
  ∃ k, built out.2 = app (built t) (take k items) ∧
       (∀ b, out.1 = Returned (b, None) → built out.2 = app (built t) items).
Proof.
  intros HG HL out. subst out.
  destruct (call_added region plan t items HG HL)
    as (k & new & Ht & Hb & Hk & _ & _ & Hok).
  exists k. rewrite Ht, built_app, Hb. split; [reflexivity|].
  intros b Hret. destruct (Hok b Hret) as [-> _]. now rewrite firstn_all.
Qed.

(** X9.  Every create-or-replace call of a call of [UpdateAWSNode] carries
    the plan flag of that call, so a plan run never asks for a real
    create-or-replace; and there is at most one such call per manifest
    item. *)
Theorem X9_plan_flag_passed region plan t items :
  GetDaemonSet w t NamespaceSystem AWSNode = None →
  LoadAsset w (app t [Call (GetDaemonSet_ NamespaceSystem AWSNode)]) AWSNode "yaml"
    = inr items →
  let out := call (UpdateAWSNode acct w region plan) t in
  ∃ new, out.2 = app t new ∧
         Forall (λ c, c.2 = plan) (apply_calls new) ∧
         (length (apply_calls new) ≤ length items)%nat.
Proof.
  intros HG HL out. subst out.
  destruct (call_added region plan t items HG HL)
    as (k & new & Ht & _ & Hk & Hflag & Hlen & _).
  exists new. repeat split; auto. lia.
Qed.

(** X10.  A call in apply mode that returns without an error has made
    exactly one create-or-replace call for each item of the manifest. *)
Theorem X10_apply_covers_manifest region t items :
  GetDaemonSet w t NamespaceSystem AWSNode = None →
  LoadAsset w (app t [Call (GetDaemonSet_ NamespaceSystem AWSNode)]) AWSNode "yaml"
    = inr items →
  let out := call (UpdateAWSNode acct w region false) t in
  out.1 = Returned (false, None) →
  length (apply_calls out.2) = length (apply_calls t) + length items.
Proof.
  intros HG HL out Hret. subst out.
  destruct (call_added region false t items HG HL)
    as (k & new & Ht & _ & _ & _ & _ & Hok).
  destruct (Hok false Hret) as [_ Hall].
  rewrite Ht, apply_calls_app, length_app, (Hall eq_refl). reflexivity.
Qed.

(** X11.  [UpdateAWSNode] reports [true] only in plan mode, only without an
    error, and only when the add-on was found. *)
Theorem X11_changed_only_in_plan region plan t e t' :
  call (UpdateAWSNode acct w region plan) t = (Returned (true, e), t') →
  plan = true ∧ e = None ∧ GetDaemonSet w t NamespaceSystem AWSNode = None.
Proof.
  intros Hrun.
  destruct (GetDaemonSet w t NamespaceSystem AWSNode) as [err|] eqn:HG.
  { rewrite (UpdateAWSNode_absent acct w region plan t err HG) in Hrun.
    destruct (IsNotFound err); discriminate. }
  destruct (LoadAsset w (app t [Call (GetDaemonSet_ NamespaceSystem AWSNode)])
              AWSNode "yaml") as [err|items] eqn:HL.
  { rewrite (UpdateAWSNode_load_error acct w region plan t err HG HL) in Hrun.
    discriminate. }
  rewrite (UpdateAWSNode_present acct w region plan t items HG HL) in Hrun.
  pose proof (loop_failing acct w region plan items
    (app t [Call (GetDaemonSet_ NamespaceSystem AWSNode);
            Call (LoadAsset_ AWSNode "yaml")])) as H.
  destruct (loop acct w region plan items _) as [[[]|[b' e']|msg] t'']; cbn in H.
  - injection Hrun as -> <- _. auto.
  - destruct H as [-> _]. discriminate.
  - discriminate.
Qed.

Lemma Count_colon_free_literals :
  Count ".dkr.ecr." ":" = 0 ∧ Count awsNodeImageSuffix ":" = 0.
Proof. split; reflexivity. Qed.

(** X12.  The registry rewrite is idempotent: an image it produced for a
    region is well formed and is rewritten to itself for that region,
    provided the account id, the region and the tag are free of colons. *)
Theorem X12_rewrite_fixed_point region tag t :
  Count (acct region) ":" = 0 → Count region ":" = 0 → Count tag ":" = 0 →
  Count (regionalImage acct region tag) ":" = 1 ∧
  rewriteImage acct region (regionalImage acct region tag) t =
    (Next (regionalImage acct region tag), t).
Proof.
  intros Ha Hr Ht.
  set (host := acct region +:+ ".dkr.ecr." +:+ region +:+ awsNodeImageSuffix).
  assert (Himg : regionalImage acct region tag = host +:+ ":" +:+ tag).
  { unfold regionalImage, host. now rewrite !append_assoc. }
  assert (Hh : Count host ":" = 0).
  { unfold host. rewrite !Count_app, Ha, Hr. reflexivity. }
  assert (Hs : HasSuffix host awsNodeImageSuffix = true).
  { apply HasSuffix_spec. exists (acct region +:+ ".dkr.ecr." +:+ region).
    unfold host. now rewrite !append_assoc. }
  split.
  - rewrite Himg. change (host +:+ ":" +:+ tag) with (host +:+ String ":" tag).
    rewrite Count_app, Hh. cbn. now rewrite Ht.
  - rewrite Himg at 1.
    rewrite (rewriteImage_wellformed acct region host tag t Hh Ht), Hs. reflexivity.
Qed.

(** X13.  A manifest item of any kind other than [DaemonSet] reaches
    [CreateOrReplace] exactly as [NewRawResource] built it, unless it is a
    custom resource definition in plan mode. *)
Theorem X13_other_kinds_untouched region plan rawObj t resource :
  NewRawResource w t rawObj = inr resource →
  Kind resource ≠ "DaemonSet" →
  String.eqb (Kind resource) "CustomResourceDefinition" && plan = false →
  let t1 := app t [Call (NewRawResource_ rawObj)] in
  iteration acct w region plan rawObj t = applied w plan resource t1 ∧
  apply_calls (iteration acct w region plan rawObj t).2
    = app (apply_calls t) [(resource, plan)].
Proof.
  intros HN HK Hskip t1.
  pose proof (iteration_other acct w region plan rawObj t resource HN HK) as Hit.
  cbn zeta in Hit. rewrite Hskip in Hit. fold t1 in Hit.
  split; [exact Hit|]. rewrite Hit. unfold applied, t1.
  destruct (CreateOrReplace w _ resource plan) as [status [e|]]; cbn;
    rewrite !apply_calls_app; cbn; now rewrite ?app_nil_r.
Qed.

(** X14.  An item of kind [DaemonSet] whose object is not an
    [*appsv1.DaemonSet] makes the type assertion panic: the loop panics
    there, before the item is applied. *)
Theorem X14_type_assertion_panics region plan rawObj rest t doc :
  NewRawResource w t rawObj =
    inr {| Kind := "DaemonSet"; InfoObject := OtherObject doc |} →
  loop acct w region plan (rawObj :: rest) t =
    (Panic "interface conversion", app t [Call (NewRawResource_ rawObj)]).
Proof.
  intros HN. now rewrite loop_cons, (iteration_not_apps_v1 acct w _ _ _ _ _ HN).
Qed.

(** X15.  The first item whose iteration does not fall through ends the
    loop there: the loop gives what that iteration gave, and the items
    after it are neither built nor applied.  The failing call decides the
    result, for an item of any kind: when [NewRawResource] fails the item is
    not applied; when [CreateOrReplace] fails its error is returned with
    [false] and no status is logged, be the item a [DaemonSet], which is
    applied with the image the rewrite gave, or of another kind. *)
Theorem X15_item_failure_aborts region plan before rawObj rest t t' :
  loop acct w region plan before t = (Next tt, t') →
  let t1 := app t' [Call (NewRawResource_ rawObj)] in
  let stopped := iteration acct w region plan rawObj t' in
  (stopped.1 ≠ Next tt →
     loop acct w region plan (app before (rawObj :: rest)) t = stopped ∧
     built stopped.2 = app (built t') [rawObj]) ∧
  (∀ err, NewRawResource w t' rawObj = inl err →
     loop acct w region plan (app before (rawObj :: rest)) t =
       (Return (false, Some err), t1)) ∧
  (∀ resource status err,
     NewRawResource w t' rawObj = inr resource →
     Kind resource ≠ "DaemonSet" →
     String.eqb (Kind resource) "CustomResourceDefinition" && plan = false →
     CreateOrReplace w t1 resource plan = (status, Some err) →
     loop acct w region plan (app before (rawObj :: rest)) t =
       (Return (false, Some err), app t1 [Call (CreateOrReplace_ resource plan)])) ∧
  (∀ ds c cs host tag status err,
     NewRawResource w t' rawObj =
       inr {| Kind := "DaemonSet"; InfoObject := DaemonSetV1 ds |} →
     Containers ds = c :: cs →
     Image c = host +:+ ":" +:+ tag → Count host ":" = 0 → Count tag ":" = 0 →
     let resource :=
       daemonSet c cs (if HasSuffix host awsNodeImageSuffix
                       then regionalImage acct region tag else Image c) in
     CreateOrReplace w t1 resource plan = (status, Some err) →
     loop acct w region plan (app before (rawObj :: rest)) t =
       (Return (false, Some err), app t1 [Call (CreateOrReplace_ resource plan)])).
Proof.
  intros Hbefore t1 stopped. split; [|split; [|split]].
  - intros Hstop. subst stopped. rewrite loop_app, Hbefore, loop_cons.
    destruct (iteration_added region plan rawObj t') as (new & Ht & Hadd).
    destruct (added_facts _ _ _ Hadd) as (Hb & _).
    destruct (iteration acct w region plan rawObj t') as [[[]|r|msg] t''];
      cbn in Hstop, Ht; [contradiction | |]; subst t'';
      (split; [reflexivity|]); cbn;
      change (Call (NewRawResource_ rawObj) :: new)
        with (app [Call (NewRawResource_ rawObj)] new);
      rewrite !built_app, Hb; reflexivity.
  - intros err HN. rewrite loop_app, Hbefore, loop_cons.
    now rewrite (iteration_error acct w _ _ _ _ _ HN).
  - intros resource status err HN HK Hskip HC.
    rewrite loop_app, Hbefore, loop_cons.
    rewrite (iteration_other acct w _ _ _ _ _ HN HK). cbn zeta.
    rewrite Hskip. unfold applied. fold t1. now rewrite HC.
  - intros ds c cs host tag status err HN HC Himg Hh Ht resource Happ.
    rewrite loop_app, Hbefore, loop_cons.
    rewrite (iteration_daemonSet acct w _ _ _ _ _ c cs HN HC). cbn zeta. fold t1.
    rewrite Himg, (rewriteImage_wellformed acct region host tag t1 Hh Ht).
    rewrite <- Himg. fold resource. unfold applied. now rewrite Happ.
Qed.

(** X16.  When the probe for the DaemonSet fails with any error other than
    "not found", [UpdateAWSNode] returns [false] and that error wrapped with
    "getting aws-node"; the manifest is not loaded and nothing is applied. *)
Theorem X16_probe_error_wrapped region plan t err :
  GetDaemonSet w t NamespaceSystem AWSNode = Some err →
  IsNotFound err = false →
  let out := call (UpdateAWSNode acct w region plan) t in
  out = (Returned (false, Some (Wrapf err "getting %q" ["aws-node"])),
         app t [Call (GetDaemonSet_ "kube-system" "aws-node")]) ∧
  load_calls out.2 = load_calls t ∧
  apply_calls out.2 = apply_calls t.
Proof.
  intros HG HNF out. subst out.
  rewrite (UpdateAWSNode_absent acct w region plan t err HG), HNF. cbn.
  split; [reflexivity|].
  rewrite load_calls_app, apply_calls_app. cbn. now rewrite !app_nil_r.
Qed.

(** X17.  When the manifest cannot be loaded, [UpdateAWSNode] returns
    [false] and the error of [LoadAsset]; no resource is built or applied. *)
Theorem X17_load_failure region plan t err :
  GetDaemonSet w t NamespaceSystem AWSNode = None →
  LoadAsset w (app t [Call (GetDaemonSet_ NamespaceSystem AWSNode)]) AWSNode "yaml"
    = inl err →
  let out := call (UpdateAWSNode acct w region plan) t in
  out.1 = Returned (false, Some err) ∧
  built out.2 = built t ∧
  apply_calls out.2 = apply_calls t.
Proof.
  intros HG HL out. subst out.
  rewrite (UpdateAWSNode_load_error acct w region plan t err HG HL). cbn.
  split; [reflexivity|].
  rewrite built_app, apply_calls_app. cbn. now rewrite !app_nil_r.
Qed.

End AddonLoop.

(** * The endpoint command as the integration test runs it *)
Section IntegrationTest.
Import utils integration_test.
Context (w : World).

Lemma flagsGiven_supplied plan cfg p q :
  let cmd := {| Plan := plan; ClusterConfig := cfg; FlagSetGroup := flagsGiven p q |} in
  supplied cmd "private-access" = p ∧ supplied cmd "public-access" = q.
Proof. split; reflexivity. Qed.

Lemma run_explicit_flags cfg c np nq live :
  ready w (updateCommand cfg) c →
  (∀ eps, UpdateErr w eps = None) →
  live ≠ noAccess →
  let out := run api.ValidateClusterEndpointConfig w (updateCommand cfg) np nq live in
  (np || nq = false →
     out.1 = Returned (Some ErrClusterEndpointNoAccess) ∧ remote out.2 = live) ∧
  (np || nq = true →
     out.1 = Returned None ∧
     remote out.2 = {| privateAccess := np; publicAccess := nq |}).
Proof.
  intros Hready Hupd Hlive out. subst out.
  assert (Hres : resolved (updateCommand cfg) np nq live
                 = {| privateAccess := np; publicAccess := nq |}) by reflexivity.
  split.
  - intros Hoff. apply orb_false_iff in Hoff as [-> ->].
    rewrite (run_rejected api.ValidateClusterEndpointConfig w _ _ _ _ c noAccess
               ErrClusterEndpointNoAccess Hready Hres);
      [auto | congruence | reflexivity | discriminate].
  - intros Hon.
    destruct (decide ({| privateAccess := np; publicAccess := nq |} = live)) as [Hd|Hd].
    + rewrite (run_same api.ValidateClusterEndpointConfig w _ _ _ _ _ Hready
                 ltac:(now rewrite Hres)). cbn. auto.
    + assert (Hacc : accepted (api.ValidateClusterEndpointConfig
                (withEndpoints {| privateAccess := np; publicAccess := nq |} c)) = true).
      { rewrite validate_withEndpoints. cbn. destruct np, nq; try reflexivity.
        discriminate. }
      rewrite (run_apply api.ValidateClusterEndpointConfig w _ _ _ _ c _
                 Hready Hres Hd Hacc eq_refl). cbn zeta. rewrite Hupd. auto.
Qed.

(** X18.  With both access flags given and the run approved, on a cluster
    that is reachable and with an update API that succeeds: the command
    fails with the no-access error, leaving the cluster as it is, when both
    requested values are false; otherwise it succeeds and the cluster ends
    in exactly the requested state, whatever state it was in. *)
Theorem X18_explicit_flags cfg c np nq live :
  ready w (updateCommand cfg) c →
  (∀ eps, UpdateErr w eps = None) →
  live ≠ noAccess →
  let out := run api.ValidateClusterEndpointConfig w (updateCommand cfg) np nq live in
  (np || nq = false →
     out.1 = Returned (Some ErrClusterEndpointNoAccess) ∧ remote out.2 = live) ∧
  (np || nq = true →
     out.1 = Returned None ∧
     remote out.2 = {| privateAccess := np; publicAccess := nq |}).
Proof. exact (run_explicit_flags cfg c np nq live). Qed.

End IntegrationTest.

Section Names.
Import integration_test.
Context (ClusterName : nat → string).

(** X19.  [generateName] draws a cluster name only while it holds none: the
    name it returns is the prefix, a dash and the held name, and once a
    non-empty name is held every later call reuses it without drawing, so
    the entries of one suite that share a prefix name the same cluster. *)
Theorem X19_generateName_stable prefix prefix' s :
  let first := generateName ClusterName prefix s in
  first.1 = prefix +:+ "-" +:+ clusterName first.2 ∧
  (clusterName s ≠ "" → first.2 = s) ∧
  (clusterName s = "" →
     clusterName first.2 = ClusterName (namesDrawn s) ∧
     namesDrawn first.2 = S (namesDrawn s)) ∧
  (clusterName first.2 ≠ "" →
     generateName ClusterName prefix' first.2
       = (prefix' +:+ "-" +:+ clusterName first.2, first.2)).
Proof.
  intros first. subst first. unfold generateName.
  destruct (String.eqb_spec (clusterName s) "") as [He|He]; cbn.
  - repeat split; try contradiction.
    intros Hne. destruct (String.eqb_spec (ClusterName (namesDrawn s)) "");
      [contradiction | reflexivity].
  - repeat split; try contradiction.
    intros _. destruct (String.eqb_spec (clusterName s) ""); [contradiction|].
    reflexivity.
Qed.

End Names.

(** * The further properties at concrete inputs *)
Section EndpointExamples.
Import utils.

Lemma X1_preamble_failure_witness :
  run api.ValidateClusterEndpointConfig
      (failures.world (Some failures.denied) None None (true, None) None None)
      (command false true false) true false live_public
    = (Returned (Some failures.denied),
       {| cfg := cluster3; remote := live_public; trace := [Call Load_] |}) ∧
  (run api.ValidateClusterEndpointConfig
      (failures.world None None None (true, None) (Some failures.denied) None)
      (command false true false) true false live_public).1
    = Returned (Some failures.denied).
Proof.
  split.
  - apply (proj1 (X1_preamble_failure api.ValidateClusterEndpointConfig
                    (failures.world (Some failures.denied) None None (true, None) None None)
                    (command false true false) true false live_public)).
    reflexivity.
  - destruct (X1_preamble_failure api.ValidateClusterEndpointConfig
                (failures.world None None None (true, None) (Some failures.denied) None)
                (command false true false) true false live_public)
      as (_ & _ & _ & H).
    rewrite (H cluster3 failures.denied); reflexivity.
Defined.

Lemma X2_cannot_update_witness :
  let out := run api.ValidateClusterEndpointConfig
               (failures.world None None None (false, None) None None)
               (command false true false) true false live_public in
  out.1 = Returned None ∧
  last (trace out.2) = Some (Call CanUpdate_) ∧
  validate_calls (trace out.2) = [] ∧
  update_calls (trace out.2) = [] ∧
  cfg out.2 = cluster3.
Proof.
  apply (X2_cannot_update api.ValidateClusterEndpointConfig
           (failures.world None None None (false, None) None None)
           (command false true false) true false live_public cluster3 None);
    reflexivity.
Defined.

Lemma failing_update_ready plan p q :
  ready (failures.world None None None (true, None) None (Some failures.denied))
        (command plan p q) cluster3.
Proof. repeat split. Defined.

Lemma X4_update_failure_witness :
  let out := run api.ValidateClusterEndpointConfig
               (failures.world None None None (true, None) None (Some failures.denied))
               (command false true false) true false live_public in
  out.1 = Returned (Some failures.denied) ∧
  last (trace out.2)
    = Some (Call (UpdateClusterConfigForEndpoints_ (endpointsOf live_both))) ∧
  update_calls (trace out.2) = [endpointsOf live_both] ∧
  cfg out.2 = withEndpoints live_both cluster3.
Proof.
  apply (X4_update_failure api.ValidateClusterEndpointConfig
           (failures.world None None None (true, None) None (Some failures.denied))
           (command false true false) true false live_public cluster3 live_both
           failures.denied).
  - apply failing_update_ready.
  - vm_compute; reflexivity.
  - vm_compute; discriminate.
  - vm_compute; reflexivity.
  - reflexivity.
  - reflexivity.
Defined.

Lemma X5_rerun_is_noop_witness :
  let again := run api.ValidateClusterEndpointConfig quietWorld
                 (command false true false) true false live_both in
  again.1 = Returned None ∧
  changed again = false ∧
  validate_calls (trace again.2) = [] ∧
  update_calls (trace again.2) = [] ∧
  remote again.2 = live_both.
Proof.
  apply (X5_rerun_is_noop api.ValidateClusterEndpointConfig quietWorld
           (command false true false) true false live_public cluster3).
  - apply quietWorld_ready.
  - reflexivity.
  - vm_compute; reflexivity.
Defined.

Lemma X6_never_locked_out_witness :
  let out := run api.ValidateClusterEndpointConfig quietWorld
               (command false true true) false false live_both in
  (endpointsOf noAccess ∉ update_calls (trace out.2)) ∧
  remote out.2 ≠ noAccess.
Proof.
  apply (X6_never_locked_out api.ValidateClusterEndpointConfig quietWorld
           (command false true true) false false live_both).
  - intros c. reflexivity.
  - vm_compute; discriminate.
Defined.

Lemma X7_unregistered_flags_ignored_witness :
  let cmd := {| Plan := false; ClusterConfig := cluster3; FlagSetGroup := ∅ |} in
  let out := run api.ValidateClusterEndpointConfig quietWorld cmd true false live_public in
  accessFlagsSet cmd = (false, false) ∧
  out.1 = Returned None ∧
  changed out = false ∧
  update_calls (trace out.2) = [] ∧
  cfg out.2 = cluster3.
Proof.
  apply (X7_unregistered_flags_ignored api.ValidateClusterEndpointConfig quietWorld
           {| Plan := false; ClusterConfig := cluster3; FlagSetGroup := ∅ |}
           true false live_public cluster3).
  - reflexivity.
  - repeat split.
Defined.

Lemma X18_explicit_flags_witness :
  let out := run api.ValidateClusterEndpointConfig quietWorld
               (integration_test.updateCommand cluster3) false true live_both in
  out.1 = Returned None ∧
  remote out.2 = {| privateAccess := false; publicAccess := true |}.
Proof.
  apply (X18_explicit_flags quietWorld cluster3 cluster3 false true live_both).
  - repeat split.
  - reflexivity.
  - vm_compute; discriminate.
  - reflexivity.
Defined.

End EndpointExamples.

(** The update entries of the integration test expect an error exactly where
    the command gives one, and read back the requested state. *)
Example update_entries_met (w : utils.World) cfg c live e :
  e ∈ integration_test.updateEntries →
  utils.ready w (integration_test.updateCommand cfg) c →
  (∀ eps, utils.UpdateErr w eps = None) →
  live ≠ utils.noAccess →
  let out := utils.run api.ValidateClusterEndpointConfig w
               (integration_test.updateCommand cfg)
               (integration_test.Private e) (integration_test.Public e) live in
  match integration_test.Error e with
  | Some _ => ∃ err, out.1 = Returned (Some err)
  | None => out.1 = Returned None ∧
            utils.remote out.2 = integration_test.requested e
  end.
Proof.
  intros He Hready Hupd Hlive out.
  destruct (run_explicit_flags w cfg c (integration_test.Private e)
              (integration_test.Public e) live Hready Hupd Hlive) as [Hoff Hon].
  unfold integration_test.updateEntries in He.
  rewrite !elem_of_cons in He.
  destruct He as [-> | [-> | [-> | [-> | He]]]]; cbn in *;
    [apply Hon | apply Hon | eexists; apply Hoff | apply Hon | ]; auto.
  now apply elem_of_nil in He.
Qed.

Section AddonExamples.
Import defaultaddons addon_traces addon_failures.

Lemma X8_manifest_in_order_witness :
  let out := run accountID (installed (node upstreamImage)) "us-west-2" true in
  ∃ k, built out.2 = app [] (take k ["daemonset"; "crd"]) ∧
       (∀ b, out.1 = Returned (b, None) → built out.2 = app [] ["daemonset"; "crd"]).
Proof.
  apply (X8_manifest_in_order accountID (installed (node upstreamImage))
           "us-west-2" true [] ["daemonset"; "crd"]); reflexivity.
Defined.

Lemma X9_plan_flag_passed_witness :
  let out := run accountID (installed (node upstreamImage)) "us-west-2" true in
  ∃ new, out.2 = app [] new ∧
         Forall (λ c, c.2 = true) (apply_calls new) ∧
         (length (apply_calls new) ≤ 2)%nat.
Proof.
  apply (X9_plan_flag_passed accountID (installed (node upstreamImage))
           "us-west-2" true [] ["daemonset"; "crd"]); reflexivity.
Defined.

Lemma X10_apply_covers_manifest_witness :
  length (apply_calls (run accountID (installed (node upstreamImage)) "us-west-2" false).2)
    = 2.
Proof.
  apply (X10_apply_covers_manifest accountID (installed (node upstreamImage))
           "us-west-2" [] ["daemonset"; "crd"]); reflexivity.
Defined.

Lemma X11_changed_only_in_plan_witness :
  true = true ∧ (None : option error) = None ∧
  GetDaemonSet (installed (node upstreamImage)) [] NamespaceSystem AWSNode = None.
Proof.
  apply (X11_changed_only_in_plan accountID (installed (node upstreamImage))
           "us-west-2" true [] None
           (run accountID (installed (node upstreamImage)) "us-west-2" true).2).
  vm_compute. reflexivity.
Defined.

Lemma X12_rewrite_fixed_point_witness :
  Count (regionalImage accountID "eu-west-1" "v1.7.0") ":" = 1 ∧
  rewriteImage accountID "eu-west-1" (regionalImage accountID "eu-west-1" "v1.7.0") []
    = (Next (regionalImage accountID "eu-west-1" "v1.7.0"), []).
Proof.
  apply (X12_rewrite_fixed_point accountID "eu-west-1" "v1.7.0" []); reflexivity.
Defined.

Lemma X13_other_kinds_untouched_witness :
  let t1 := [Call (NewRawResource_ "sa")] in
  iteration accountID (threeItems false) "us-west-2" true "sa" []
    = applied (threeItems false) true serviceAccount t1 ∧
  apply_calls (iteration accountID (threeItems false) "us-west-2" true "sa" []).2
    = [(serviceAccount, true)].
Proof.
  apply (X13_other_kinds_untouched accountID (threeItems false) "us-west-2" true
           "sa" [] serviceAccount); [reflexivity | discriminate | reflexivity].
Defined.

Lemma X14_type_assertion_panics_witness :
  loop accountID legacyDaemonSet "us-west-2" false ["daemonset"] []
    = (Panic "interface conversion", [Call (NewRawResource_ "daemonset")]).
Proof.
  apply (X14_type_assertion_panics accountID legacyDaemonSet "us-west-2" false
           "daemonset" [] [] "extensions/v1beta1").
  reflexivity.
Defined.

Lemma X15_item_failure_aborts_witness :
  loop accountID (threeItems false) "us-west-2" false ["sa"; "garbage"; "crd"] []
    = (Return (false, Some (ErrOther "cannot decode")),
       [Call (NewRawResource_ "sa"); Call (CreateOrReplace_ serviceAccount false);
        Log Info "replaced" []; Call (NewRawResource_ "garbage")]) ∧
  loop accountID (threeItems true) "us-west-2" false ["sa"; "garbage"; "crd"] []
    = (Return (false, Some failures.denied),
       [Call (NewRawResource_ "sa"); Call (CreateOrReplace_ serviceAccount false)]) ∧
  loop accountID deniedApplier "eu-west-1" false ["daemonset"; "crd"] []
    = (Return (false, Some failures.denied),
       [Call (NewRawResource_ "daemonset");
        Call (CreateOrReplace_
                (nodeDaemonSet
                   (node "602401143452.dkr.ecr.eu-west-1.amazonaws.com/amazon-k8s-cni:v1.7.0"))
                false)]) ∧
  built (iteration accountID (threeItems false) "us-west-2" false "garbage"
           [Call (NewRawResource_ "sa")]).2 = ["sa"; "garbage"].
Proof.
  split; [|split; [|split]].
  - destruct (X15_item_failure_aborts accountID (threeItems false) "us-west-2" false
                ["sa"] "garbage" ["crd"] []
                [Call (NewRawResource_ "sa");
                 Call (CreateOrReplace_ serviceAccount false);
                 Log Info "replaced" []] eq_refl) as (_ & H & _).
    apply H. reflexivity.
  - destruct (X15_item_failure_aborts accountID (threeItems true) "us-west-2" false
                [] "sa" ["garbage"; "crd"] [] [] eq_refl) as (_ & _ & H & _).
    apply (H serviceAccount "" failures.denied);
      [reflexivity | discriminate | reflexivity | reflexivity].
  - destruct (X15_item_failure_aborts accountID deniedApplier "eu-west-1" false
                [] "daemonset" ["crd"] [] [] eq_refl) as (_ & _ & _ & H).
    apply (H {| Containers := node upstreamImage |}
             {| ContainerName := "aws-node"; Image := upstreamImage |} []
             "123456789012.dkr.ecr.us-west-2.amazonaws.com/amazon-k8s-cni" "v1.7.0"
             "" failures.denied); reflexivity.
  - destruct (X15_item_failure_aborts accountID (threeItems false) "us-west-2" false
                [] "garbage" ["crd"] [Call (NewRawResource_ "sa")]
                [Call (NewRawResource_ "sa")] eq_refl) as (H & _).
    apply H. discriminate.
Defined.

Lemma X16_probe_error_wrapped_witness :
  let out := run accountID probeDenied "us-west-2" false in
  out = (Returned (false, Some (Wrapf failures.denied "getting %q" ["aws-node"])),
         [Call (GetDaemonSet_ "kube-system" "aws-node")]) ∧
  load_calls out.2 = [] ∧
  apply_calls out.2 = [].
Proof.
  apply (X16_probe_error_wrapped accountID probeDenied "us-west-2" false []
           failures.denied); reflexivity.
Defined.

Lemma X17_load_failure_witness :
  let out := run accountID noAsset "us-west-2" false in
  out.1 = Returned (false, Some (ErrOther "asset not found")) ∧
  built out.2 = [] ∧
  apply_calls out.2 = [].
Proof.
  apply (X17_load_failure accountID noAsset "us-west-2" false []
           (ErrOther "asset not found")); reflexivity.
Defined.

Lemma X19_generateName_stable_witness :
  integration_test.generateName (λ _, "ferocious-outfit") "cluster3"
    {| integration_test.clusterName := "ferocious-outfit";
       integration_test.namesDrawn := 1 |}
  = ("cluster3-ferocious-outfit",
     {| integration_test.clusterName := "ferocious-outfit";
        integration_test.namesDrawn := 1 |}).
Proof.
  destruct (X19_generateName_stable (λ _, "ferocious-outfit") "cluster1" "cluster3"
              {| integration_test.clusterName := "";
                 integration_test.namesDrawn := 0 |}) as (_ & _ & _ & H).
  apply H. discriminate.
Defined.

End AddonExamples.

(** * Plan mode and apply mode, across both reconcilers *)

(** C2 (as the code has it).  In plan mode neither reconciler mutates: the
    endpoint reconciler never calls the update API and leaves the cluster
    as it is, and every create-or-replace call of [UpdateAWSNode] is passed
    the plan flag, which tells the applier not to mutate.  The endpoint
    reconciler returns the same result and the same [changed] verdict in
    both modes whenever the update call of the apply run succeeds.
    [UpdateAWSNode] does not: a call that finds the add-on and returns
    without an error has gone through the whole manifest, with one
    create-or-replace call per item in apply mode, and its verdict is the
    plan flag, [true] in plan mode and [false] in apply mode. *)
Theorem C2_plan_apply_verdicts :
  (∀ validate w cmd np nq live,
     let p := utils.run validate w (utils.withPlan true cmd) np nq live in
     let a := utils.run validate w (utils.withPlan false cmd) np nq live in
     utils.update_calls (utils.trace p.2) = [] ∧
     utils.remote p.2 = live ∧
     (utils.UpdateErr w (utils.endpointsOf (utils.resolved cmd np nq live)) = None →
      p.1 = a.1 ∧ utils.changed p = utils.changed a)) ∧
  (∀ acct w region plan t,
     let out := call (defaultaddons.UpdateAWSNode acct w region plan) t in
     (∃ new, out.2 = app t new ∧
             Forall (λ c, c.2 = plan) (defaultaddons.apply_calls new)) ∧
     (∀ b,
        defaultaddons.GetDaemonSet w t defaultaddons.NamespaceSystem defaultaddons.AWSNode
          = None →
        out.1 = Returned (b, None) →
        b = plan ∧
        ∃ items,
          defaultaddons.LoadAsset w
            (app t [Call (defaultaddons.GetDaemonSet_ defaultaddons.NamespaceSystem
                            defaultaddons.AWSNode)])
            defaultaddons.AWSNode "yaml" = inr items ∧
          addon_traces.built out.2 = app (addon_traces.built t) items ∧
          (plan = false →
           length (defaultaddons.apply_calls out.2)
             = length (defaultaddons.apply_calls t) + length items))).
Proof.
  split.
  - intros validate w cmd np nq live p a.
    destruct (plan_apply_agree validate w cmd np nq live) as (Hc & Hr & Hsame).
    split; [exact Hc|]. split; [exact Hr|].
    intros Hu. destruct (Hsame Hu) as (H1 & H2 & _). auto.
  - intros acct w region plan t out. subst out. split.
    + apply call_flags.
    + intros b HG Hret.
      destruct (call (defaultaddons.UpdateAWSNode acct w region plan) t)
        as [r t'] eqn:Hrun. cbn in Hret. subst r.
      split; [exact (UpdateAWSNode_changed acct w region plan t b t' HG Hrun)|].
      destruct (defaultaddons.LoadAsset w
                  (app t [Call (defaultaddons.GetDaemonSet_
                                  defaultaddons.NamespaceSystem defaultaddons.AWSNode)])
                  defaultaddons.AWSNode "yaml") as [err|items] eqn:HL.
      { rewrite (UpdateAWSNode_load_error acct w region plan t err HG HL) in Hrun.
        discriminate. }
      exists items. split; [reflexivity|].
      destruct (call_added acct w region plan t items HG HL)
        as (k & new & Ht & Hb & _ & _ & _ & Hok).
      rewrite Hrun in Ht, Hok. cbn in Ht, Hok.
      destruct (Hok b eq_refl) as [-> Hall]. subst t'. cbn.
      rewrite built_app, apply_calls_app, length_app, Hb, firstn_all.
      split; [reflexivity|]. intros Hp. now rewrite (Hall Hp).
Qed.

(** C2 as stated fails for [UpdateAWSNode]: with the add-on installed and
    every call succeeding, the plan run returns [true] and the apply run
    returns [false]. *)
Lemma C2_counterexample :
  ¬ (∀ acct w region b1 e1 t1 b2 e2 t2,
       defaultaddons.run acct w region true = (Returned (b1, e1), t1) →
       defaultaddons.run acct w region false = (Returned (b2, e2), t2) →
       b1 = b2).
Proof.
  intros H.
  pose (w := defaultaddons.installed (defaultaddons.node defaultaddons.upstreamImage)).
  pose (p := defaultaddons.run defaultaddons.accountID w "us-west-2" true).
  pose (a := defaultaddons.run defaultaddons.accountID w "us-west-2" false).
  assert (true = false) as Hbad; [|discriminate Hbad].
  apply (H defaultaddons.accountID w "us-west-2" true None p.2 false None a.2);
    vm_compute; reflexivity.
Qed.

(** Plan against apply on the same inputs. *)
Lemma C2_plan_apply_verdicts_witness :
  (let p := utils.run api.ValidateClusterEndpointConfig utils.quietWorld
              (utils.command true true false) true false utils.live_public in
   let a := utils.run api.ValidateClusterEndpointConfig utils.quietWorld
              (utils.command false true false) true false utils.live_public in
   p.1 = a.1 ∧ utils.changed p = utils.changed a) ∧
  (let w := defaultaddons.installed (defaultaddons.node defaultaddons.upstreamImage) in
   let p := defaultaddons.run defaultaddons.accountID w "us-west-2" true in
   let a := defaultaddons.run defaultaddons.accountID w "us-west-2" false in
   p.1 = Returned (true, None) ∧
   Forall (λ c, c.2 = true) (defaultaddons.apply_calls p.2) ∧
   a.1 = Returned (false, None) ∧
   addon_traces.built a.2 = ["daemonset"; "crd"] ∧
   length (defaultaddons.apply_calls a.2) = 2).
Proof.
  destruct C2_plan_apply_verdicts as [Hend Haddon]. split.
  - destruct (Hend api.ValidateClusterEndpointConfig utils.quietWorld
                (utils.command true true false) true false utils.live_public)
      as (_ & _ & H).
    apply H. reflexivity.
  - intros w p a.
    destruct (Haddon defaultaddons.accountID w "us-west-2" true [])
      as ((new & Hnew & Hflags) & _).
    destruct (Haddon defaultaddons.accountID w "us-west-2" false [])
      as (_ & Hdone).
    destruct (Hdone false eq_refl eq_refl) as (_ & items & Hitems & Hbuilt & Hcalls).
    injection Hitems as <-.
    split; [reflexivity|].
    split; [subst p; unfold defaultaddons.run; rewrite Hnew; exact Hflags|].
    split; [reflexivity|]. split; [exact Hbuilt|]. exact (Hcalls eq_refl).
Defined.
